(** * Visit-counter badge: storage layer and request admission

    A shallow embedding of [lib/storage.js] and [api/counter.js].

    - [Module JS] holds the fragment of the JavaScript value semantics the
      two files rely on: truthiness ([||], [&&], [!]), property reads,
      [ToString], [parseInt(_, 10)] and [JSON.parse]/[JSON.stringify].
    - [Module Storage] is [lib/storage.js]: backend selection from
      [process.env], the SDK, REST and file access paths, [getCount],
      [setCount] and [increment].
    - [Module Counter] is [api/counter.js]: [getClientIP],
      [shouldRateLimit] over the process-wide [rateLimitMap], and the
      request handler.

    Numbers.  The counter is a JavaScript Number.  [Int z] is a Number
    holding the integer [z] and printed in plain decimal, as a Number is
    below 10^21; [+ 1] on it is that of the integers, which is what a
    Number does on the safe integers (magnitude up to 2^53 - 1), the
    range a count of visits lives in.  [Exp d e] is a Number of 10^21 or
    more, which prints with an exponent, and [NaN] is what [parseInt]
    gives for text that holds no number.

    Strings.  A string is a sequence of code units below 256, which is
    what Node hands over for header values; the white space of
    ECMAScript in that range is tab, LF, VT, FF, CR, space and the
    no-break space.

    Logging ([console.error]) has no effect on any result and is left
    out.  Awaited calls are run to completion one after the other. *)

From Stdlib Require Import ZArith Lia Ascii String List Bool.
From stdpp Require Import base option strings gmap.

Set Warnings "-register-all".

Local Open Scope string_scope.
Local Open Scope Z_scope.

(* ===================================================================== *)
(** ** JavaScript values *)
(* ===================================================================== *)

Module JS.

(** A Number: an integer printed in plain decimal, [NaN], or the integer
    [d * 10^e] for a digit [d] and an exponent [e] of 21 or more, which
    [Number.prototype.toString] prints in the form [1e+21]. *)
Inductive number : Type :=
| Int (z : Z)
| NaN
| Exp (d : Z) (e : Z).

(** The integer a Number holds. *)
Definition number_value (n : number) : option Z :=
  match n with
  | Int z => Some z
  | NaN => None
  | Exp d e => Some (d * 10 ^ e)
  end.

(** The values that flow through the two source files: what [JSON.parse]
    and [response.json()] yield, plus [undefined] for absent properties
    and unset environment variables. *)
Inductive value : Type :=
| VUndefined
| VNull
| VBool (b : bool)
| VNum (n : number)
| VStr (s : string)
| VArr (items : list value)
| VObj (fields : list (string * value)).

(** The exceptions the code can meet.  The source defines no error
    classes of its own; these are the ones thrown by the platform calls it
    makes and by its two [throw new Error(...)] statements. *)
Inductive error : Type :=
| SyntaxError                       (* JSON.parse, response.json() *)
| TypeError                         (* property read on null or undefined *)
| SystemError (code : string)       (* rejected fs call, carries error.code *)
| FetchFailed                       (* fetch() rejected: store unreachable *)
| SdkFailed                         (* kv.get / kv.set rejected *)
| KVReadFailed (status : Z)         (* new Error(`KV read failed: ...`) *)
| KVWriteFailed (status : Z).       (* new Error(`KV write failed: ...`) *)

(** Outcome of an awaited call: a value or a thrown exception. *)
Inductive result (A : Type) : Type :=
| Ok (a : A)
| Throw (e : error).
Arguments Ok {A} a.
Arguments Throw {A} e.

Definition bind {A B : Type} (r : result A) (k : A -> result B) : result B :=
  match r with
  | Ok a => k a
  | Throw e => Throw e
  end.

(** [error.code]: only system errors carry one. *)
Definition error_code (e : error) : option string :=
  match e with
  | SystemError c => Some c
  | _ => None
  end.

(** *** Truthiness *)

Definition number_truthy (n : number) : bool :=
  match n with
  | Int z => negb (z =? 0)
  | NaN => false
  | Exp d _ => negb (d =? 0)
  end.

Definition string_truthy (s : string) : bool :=
  match s with
  | EmptyString => false
  | String _ _ => true
  end.

Definition truthy (v : value) : bool :=
  match v with
  | VUndefined | VNull => false
  | VBool b => b
  | VNum n => number_truthy n
  | VStr s => string_truthy s
  | VArr _ | VObj _ => true
  end.

(** [a || b] on values. *)
Definition js_or (a b : value) : value := if truthy a then a else b.

(** *** Property reads: [v.name] for a name no prototype defines. *)

Fixpoint assoc (name : string) (fields : list (string * value)) : value :=
  match fields with
  | [] => VUndefined
  | (k, v) :: rest => if String.eqb k name then v else assoc name rest
  end.

Definition get_prop (v : value) (name : string) : result value :=
  match v with
  | VUndefined | VNull => Throw TypeError
  | VObj fields => Ok (assoc name fields)
  | VBool _ | VNum _ | VStr _ | VArr _ => Ok VUndefined
  end.

(** *** Decimal printing: Number.prototype.toString *)

Definition digit_char (d : Z) : ascii := ascii_of_nat (48 + Z.to_nat d).

Fixpoint digits_fuel (fuel : nat) (n : Z) (acc : string) : string :=
  match fuel with
  | O => acc
  | S f =>
      let acc' := String (digit_char (n mod 10)) acc in
      if n <? 10 then acc' else digits_fuel f (n / 10) acc'
  end.

Definition digits (n : Z) : string :=
  digits_fuel (S (Z.to_nat (Z.log2 n))) n "".

Definition Z_toString (z : Z) : string :=
  if z <? 0 then String "-" (digits (- z)) else digits z.

Definition number_toString (n : number) : string :=
  match n with
  | Int z => Z_toString z
  | NaN => "NaN"
  | Exp d e => Z_toString d +:+ "e+" +:+ Z_toString e
  end.

(** *** ToString *)

Fixpoint join (sep : string) (parts : list string) : string :=
  match parts with
  | [] => ""
  | [p] => p
  | p :: rest => p +:+ sep +:+ join sep rest
  end.

Fixpoint toString (v : value) : string :=
  match v with
  | VUndefined => "undefined"
  | VNull => "null"
  | VBool true => "true"
  | VBool false => "false"
  | VNum n => number_toString n
  | VStr s => s
  | VArr items =>
      join "," (map (fun x => match x with
                              | VUndefined | VNull => ""
                              | _ => toString x
                              end) items)
  | VObj _ => "[object Object]"
  end.

(** *** parseInt(_, 10) *)

Definition is_digit (c : ascii) : bool :=
  let n := nat_of_ascii c in (48 <=? n)%nat && (n <=? 57)%nat.

Definition digit_val (c : ascii) : Z := Z.of_nat (nat_of_ascii c) - 48.

(** Tab, LF, VT, FF, CR, space and the no-break space (U+00A0): the
    white space [parseInt] skips and [trim] strips. *)
Definition is_space (c : ascii) : bool :=
  let n := nat_of_ascii c in
  ((9 <=? n)%nat && (n <=? 13)%nat) || (n =? 32)%nat || (n =? 160)%nat.

Fixpoint skip_space (s : string) : string :=
  match s with
  | String c rest => if is_space c then skip_space rest else s
  | EmptyString => s
  end.

(** Reads the longest prefix of decimal digits, continuing from [acc]. *)
Fixpoint read_digits (s : string) (acc : Z) : Z :=
  match s with
  | String c rest =>
      if is_digit c then read_digits rest (10 * acc + digit_val c) else acc
  | EmptyString => acc
  end.

Definition parse_unsigned (s : string) : option Z :=
  match s with
  | String c _ => if is_digit c then Some (read_digits s 0) else None
  | EmptyString => None
  end.

Definition parseInt_string (s : string) : number :=
  let s := skip_space s in
  let '(sign, s) :=
    match s with
    | String "-" rest => (-1, rest)
    | String "+" rest => (1, rest)
    | _ => (1, s)
    end in
  match parse_unsigned s with
  | Some m => Int (sign * m)
  | None => NaN
  end.

Definition parseInt (v : value) : number := parseInt_string (toString v).

(** [n + 1] on Numbers.  From 10^21 on, neighbouring Numbers are more
    than 1 apart, and adding 1 gives the same Number. *)
Definition add1 (n : number) : number :=
  match n with
  | Int z => Int (z + 1)
  | NaN => NaN
  | Exp d e => Exp d e
  end.

(** *** JSON texts *)

(** A text, as [JSON.parse] sees it: either outside the JSON grammar, or
    the serialisation of a value.  [JSON.stringify] produces the latter. *)
Inductive text : Type :=
| Malformed (raw : string)
| Json (v : value).

Definition JSON_parse (t : text) : result value :=
  match t with
  | Malformed _ => Throw SyntaxError
  | Json v => Ok v
  end.

(** [JSON.stringify] writes a [NaN] as [null]. *)
Definition json_of_number (n : number) : value :=
  match n with
  | Int z => VNum (Int z)
  | NaN => VNull
  | Exp d e => VNum (Exp d e)
  end.

(** *** Shapes of text used in statements *)

Fixpoint all_space (s : string) : bool :=
  match s with
  | EmptyString => true
  | String c rest => is_space c && all_space rest
  end.


Fixpoint has_space (s : string) : bool :=
  match s with
  | EmptyString => false
  | String c rest => is_space c || has_space rest
  end.

(** Text made of ASCII characters only. *)
Fixpoint plain_ascii (s : string) : bool :=
  match s with
  | EmptyString => true
  | String c rest => (nat_of_ascii c <? 128)%nat && plain_ascii rest
  end.

Fixpoint has_char (x : ascii) (s : string) : bool :=
  match s with
  | EmptyString => false
  | String c rest => Ascii.eqb c x || has_char x rest
  end.

End JS.

(* ===================================================================== *)
(** ** lib/storage.js *)
(* ===================================================================== *)

Module Storage.
Import JS.

Definition COUNTER_KEY : string := "visit-counter".

(** *** The world the module runs in *)

(** What a rejected [fs.writeFile] leaves of the file.  The file is
    opened with flag [w]: a rejection at the open (permissions, a
    read-only file system, a directory in the way) leaves it as it was;
    a rejection after the open (a full disk, an I/O error) leaves it
    truncated, holding nothing or a part of the data. *)
Inductive aftermath : Type :=
| Untouched
| Truncated (rest : text).

(** A rejection of a write: its [error.code] and what it leaves. *)
Record rejection : Type := mk_rejection {
  reject_code : string;
  reject_leaves : aftermath
}.

(** [counter.json] in the working directory.  [file] is its contents, if
    it exists; [read_fault] is the [error.code] with which the file
    system rejects a read, and [write_fault] the way it rejects a write,
    if it does. *)
Record fs_state : Type := mk_fs {
  file : option text;
  read_fault : option string;
  write_fault : option rejection
}.

(** An HTTP response, as far as the code looks at it. *)
Record response : Type := mk_response {
  status : Z;
  body : text
}.

(** [response.ok] *)
Definition ok (r : response) : bool := (200 <=? status r) && (status r <=? 299).

Inductive method : Type := GET | POST.

Record request : Type := mk_request {
  req_method : method;
  req_url : string;
  req_authorization : string;
  req_body : option text
}.

(** The durable store at the other end of [fetch]:
    - [Unreachable]: the call is rejected;
    - [Answering r]: a server that answers every request with [r];
    - [Holding v]: a server that keeps the value of the counter key and
      follows the wire contract: a read of an absent key is a 404, a read
      of a present one a 200 with the value under [result], and a write of
      a JSON string stores it. *)
Inductive store : Type :=
| Unreachable
| Answering (r : response)
| Holding (v : option string).

Definition fetch (rq : request) (s : store) : result response * store :=
  match s with
  | Unreachable => (Throw FetchFailed, s)
  | Answering r => (Ok r, s)
  | Holding v =>
      match req_method rq with
      | GET =>
          match v with
          | None => (Ok (mk_response 404 (Json (VObj [("error", VStr "not found")]))), s)
          | Some x => (Ok (mk_response 200 (Json (VObj [("result", VStr x)]))), s)
          end
      | POST =>
          match req_body rq with
          | Some (Json (VStr x)) =>
              (Ok (mk_response 200 (Json (VObj [("result", VStr "OK")]))),
               Holding (Some x))
          | _ => (Ok (mk_response 400 (Json (VObj [("error", VStr "bad request")]))), s)
          end
      end
  end.

(** The [kv] object of [@vercel/kv], when the module could load it: its
    [get] and [set] methods, acting on the store. *)
Record client : Type := mk_client {
  kv_get : string -> store -> result value;
  kv_set : string -> string -> store -> result unit * store
}.

Record World : Type := mk_world {
  env : gmap string string;      (* process.env *)
  kv : option client;            (* the module-level [kv], null if absent *)
  fs : fs_state;
  net : store
}.

(** [process.env.NAME] *)
Definition getenv (w : World) (name : string) : value :=
  match env w !! name with
  | Some s => VStr s
  | None => VUndefined
  end.

Definition with_fs (w : World) (f : fs_state) : World :=
  mk_world (env w) (kv w) f (net w).

Definition with_net (w : World) (s : store) : World :=
  mk_world (env w) (kv w) (fs w) s.

(** [fs.readFile(COUNTER_FILE, 'utf8')] *)
Definition readFile (w : World) : result text :=
  match read_fault (fs w) with
  | Some code => Throw (SystemError code)
  | None =>
      match file (fs w) with
      | Some t => Ok t
      | None => Throw (SystemError "ENOENT")
      end
  end.

(** [fs.writeFile(COUNTER_FILE, data, 'utf8')]: creates or replaces. *)
Definition writeFile (data : text) (w : World) : result unit * World :=
  match write_fault (fs w) with
  | Some r =>
      (Throw (SystemError (reject_code r)),
       match reject_leaves r with
       | Untouched => w
       | Truncated rest =>
           with_fs w (mk_fs (Some rest) (read_fault (fs w)) (write_fault (fs w)))
       end)
  | None =>
      (Ok tt, with_fs w (mk_fs (Some data) (read_fault (fs w)) None))
  end.

(** *** hasKVConfig *)

Definition hasKVConfig (w : World) : bool :=
  if truthy (getenv w "KV_REST_API_URL") && truthy (getenv w "KV_REST_API_TOKEN")
  then true
  else if truthy (getenv w "VERCEL_REST_API_URL")
          && truthy (getenv w "VERCEL_REST_API_TOKEN")
  then true
  else false.

(** *** SDK access path *)

Definition readFromKVSDK (c : client) (w : World) : result number :=
  bind (kv_get c COUNTER_KEY (net w))
       (fun value => Ok (parseInt (js_or value (VStr "0")))).

Definition writeToKVSDK (c : client) (count : number) (w : World)
  : result bool * World :=
  match kv_set c COUNTER_KEY (number_toString count) (net w) with
  | (Ok _, s) => (Ok true, with_net w s)
  | (Throw e, s) => (Throw e, with_net w s)
  end.

(** *** REST access path *)

Definition apiUrl (w : World) : value :=
  js_or (getenv w "KV_REST_API_URL") (getenv w "VERCEL_REST_API_URL").

Definition apiToken (w : World) : value :=
  js_or (getenv w "KV_REST_API_TOKEN") (getenv w "VERCEL_REST_API_TOKEN").

Definition get_request (w : World) : request :=
  mk_request GET
    (toString (apiUrl w) +:+ "/get/" +:+ COUNTER_KEY)
    ("Bearer " +:+ toString (apiToken w))
    None.

Definition set_request (w : World) (count : number) : request :=
  mk_request POST
    (toString (apiUrl w) +:+ "/set/" +:+ COUNTER_KEY)
    ("Bearer " +:+ toString (apiToken w))
    (Some (Json (VStr (number_toString count)))).

(** What the code makes of the response to the read request. *)
Definition read_response (r : response) : result number :=
  if status r =? 404 then Ok (Int 0)
  else if negb (ok r) then Throw (KVReadFailed (status r))
  else
    bind (JSON_parse (body r)) (fun data =>
    bind (get_prop data "result") (fun res =>
    bind (get_prop data "value") (fun val =>
    Ok (parseInt (js_or (js_or res val) (VStr "0")))))).

Definition readFromKVREST (w : World) : result number :=
  bind (fst (fetch (get_request w) (net w))) read_response.

Definition writeToKVREST (count : number) (w : World) : result bool * World :=
  match fetch (set_request w count) (net w) with
  | (Throw e, s) => (Throw e, with_net w s)
  | (Ok r, s) =>
      if negb (ok r) then (Throw (KVWriteFailed (status r)), with_net w s)
      else (Ok true, with_net w s)
  end.

(** *** Auto-detected store access *)

Definition readFromKV (w : World) : result number :=
  match kv w with
  | Some c => readFromKVSDK c w
  | None => readFromKVREST w
  end.

Definition writeToKV (count : number) (w : World) : result bool * World :=
  match kv w with
  | Some c => writeToKVSDK c count w
  | None => writeToKVREST count w
  end.

(** *** File access path *)

Definition readFromFile (w : World) : result number :=
  let attempt :=
    bind (readFile w) (fun data =>
    bind (JSON_parse data) (fun json =>
    bind (get_prop json "count") (fun c =>
    Ok (parseInt (js_or c (VStr "0")))))) in
  match attempt with
  | Ok n => Ok n
  | Throw e =>
      match error_code e with
      | Some "ENOENT" => Ok (Int 0)
      | _ => Throw e
      end
  end.

Definition writeToFile (count : number) (w : World) : result bool * World :=
  let data := Json (VObj [("count", json_of_number count)]) in
  match writeFile data w with
  | (Ok _, w') => (Ok true, w')
  | (Throw e, w') => (Throw e, w')
  end.

(** *** The exported operations *)

Definition getCount (w : World) : result number :=
  if hasKVConfig w then readFromKV w else readFromFile w.

Definition setCount (count : number) (w : World) : result bool * World :=
  if hasKVConfig w then writeToKV count w else writeToFile count w.

Definition increment (w : World) : result number * World :=
  match getCount w with
  | Throw e => (Throw e, w)
  | Ok current =>
      let next := add1 current in
      match setCount next w with
      | (Throw e, w') => (Throw e, w')
      | (Ok _, w') => (Ok next, w')
      end
  end.

(** [k] calls of [increment], one after the other: the values returned
    and the world left behind. *)
Fixpoint increments (k : nat) (w : World) : list (result number) * World :=
  match k with
  | O => ([], w)
  | S k' =>
      let '(r, w1) := increment w in
      let '(rs, w2) := increments k' w1 in
      (r :: rs, w2)
  end.

(** *** Vocabulary for the statements below *)

(** A configuration value counts as present when the variable is set to a
    non-empty string. *)
Definition present (w : World) (name : string) : Prop :=
  exists s, env w !! name = Some s /\ s <> "".

(** A client that does what the store's contract says: [get] gives the
    stored string, or [null] for an absent key; [set] stores. *)
Definition faithful (c : client) : Prop :=
  forall (key : string) (v : option string),
    kv_get c key (Holding v)
      = Ok (match v with Some x => VStr x | None => VNull end)
    /\ forall x : string, kv_set c key x (Holding v) = (Ok tt, Holding (Some x)).

(** The medium of the selected backend works: the store keeps to its
    contract, or the file can be read and written. *)
Definition healthy (w : World) : Prop :=
  if hasKVConfig w
  then (exists v, net w = Holding v) /\ (forall c, kv w = Some c -> faithful c)
  else read_fault (fs w) = None /\ write_fault (fs w) = None.

(** Nothing has been stored yet in the selected backend. *)
Definition fresh (w : World) : Prop :=
  healthy w /\
  if hasKVConfig w then net w = Holding None else file (fs w) = None.

(** *** Worlds used as concrete inputs *)

(** No configuration in the environment, [counter.json] as given. *)
Definition local_world (f : option text) : World :=
  mk_world ∅ None (mk_fs f None None) Unreachable.

(** As [local_world], on a file system that rejects writes with [code]
    when the file is opened. *)
Definition readonly_world (f : option text) (code : string) : World :=
  mk_world ∅ None (mk_fs f None (Some (mk_rejection code Untouched))) Unreachable.


(** As [local_world], on a file system that rejects reads with [code]. *)
Definition unreadable_world (code : string) : World :=
  mk_world ∅ None (mk_fs None (Some code) None) Unreachable.

Definition standard_env : gmap string string :=
  <["KV_REST_API_URL" := "https://kv.example"]>
    (<["KV_REST_API_TOKEN" := "secret"]> ∅).

Definition legacy_env : gmap string string :=
  <["VERCEL_REST_API_URL" := "https://kv.example"]>
    (<["VERCEL_REST_API_TOKEN" := "secret"]> ∅).

(** Standard configuration, no SDK loaded, the store as given. *)
Definition rest_world (s : store) : World :=
  mk_world standard_env None (mk_fs None None None) s.

(** A client for the [Holding] store. *)
Definition direct_client : client :=
  mk_client
    (fun _ s =>
       match s with
       | Holding (Some x) => Ok (VStr x)
       | Holding None => Ok VNull
       | _ => Throw SdkFailed
       end)
    (fun _ x s =>
       match s with
       | Holding _ => (Ok tt, Holding (Some x))
       | _ => (Throw SdkFailed, s)
       end).

(** Standard configuration with the SDK loaded. *)
Definition sdk_world (s : store) : World :=
  mk_world standard_env (Some direct_client) (mk_fs None None None) s.

(** *** Loading the module *)

(** The top-level [try] block: [kv] becomes the SDK's client when the
    standard pair is set at load time and [require('@vercel/kv')]
    succeeds ([package] is what it then exports), and stays [null]
    otherwise. *)
Definition init_kv (e : gmap string string) (package : option client)
  : option client :=
  let var name := match e !! name with Some x => VStr x | None => VUndefined end in
  if truthy (var "KV_REST_API_URL") && truthy (var "KV_REST_API_TOKEN")
  then package
  else None.

(** The world right after the module has been loaded. *)
Definition boot (e : gmap string string) (package : option client)
    (f : fs_state) (s : store) : World :=
  mk_world e (init_kv e package) f s.

(** The environment changes while the process runs. *)
Definition with_env (w : World) (e : gmap string string) : World :=
  mk_world e (kv w) (fs w) (net w).

End Storage.

(* ===================================================================== *)
(** ** api/counter.js *)
(* ===================================================================== *)

Module Counter.
Import JS.

(** 1 minute in milliseconds *)
Definition RATE_LIMIT_WINDOW : Z := 60 * 1000.

(** What [getClientIP] reads of the incoming request. *)
Record http_request : Type := mk_req {
  x_forwarded_for : option string;     (* req.headers['x-forwarded-for'] *)
  x_real_ip : option string;           (* req.headers['x-real-ip'] *)
  remoteAddress : option string        (* req.socket?.remoteAddress *)
}.

(** [s.split(',')[0]] *)
Fixpoint first_field (s : string) : string :=
  match s with
  | EmptyString => EmptyString
  | String c rest =>
      if Ascii.eqb c "," then EmptyString else String c (first_field rest)
  end.

Fixpoint trim_end (s : string) : string :=
  match s with
  | EmptyString => EmptyString
  | String c rest =>
      match trim_end rest with
      | EmptyString => if is_space c then EmptyString else String c EmptyString
      | rest' => String c rest'
      end
  end.

(** [s.trim()] *)
Definition trim (s : string) : string := trim_end (skip_space s).

Definition opt_value (o : option string) : value :=
  match o with
  | Some s => VStr s
  | None => VUndefined
  end.

Definition getClientIP (req : http_request) : string :=
  match x_forwarded_for req with
  | Some (String c rest) => trim (first_field (String c rest))
  | _ =>
      match x_real_ip req with
      | Some (String c rest) => String c rest
      | _ => toString (js_or (opt_value (remoteAddress req)) (VStr "unknown"))
      end
  end.

(** [!lastRequest], for the result of [rateLimitMap.get(ip)]: true when
    the key is absent ([undefined]) and when the stored number is 0. *)
Definition not_lastRequest (lastRequest : option Z) : bool :=
  match lastRequest with
  | None => true
  | Some t => t =? 0
  end.

(** [shouldRateLimit(ip)], with [now] the reading of [Date.now()] and the
    module-level [rateLimitMap] passed in and out.  [true] is "rate
    limited" (SUPPRESS), [false] is ADMIT. *)
Definition shouldRateLimit (ip : string) (now : Z) (rateLimitMap : gmap string Z)
  : bool * gmap string Z :=
  let lastRequest := rateLimitMap !! ip in
  if not_lastRequest lastRequest then (false, <[ip := now]> rateLimitMap)
  else if now - default 0 lastRequest <? RATE_LIMIT_WINDOW then (true, rateLimitMap)
  else (false, <[ip := now]> rateLimitMap).

(** The admission maps a process comes to hold: empty at the start, then
    changed by [shouldRateLimit] only, at readings of [Date.now()], which
    counts the milliseconds since the epoch and is not 0 at any time
    after it. *)
Inductive reachable : gmap string Z -> Prop :=
| reachable_start : reachable ∅
| reachable_step (ip : string) (now : Z) (m : gmap string Z) :
    reachable m -> now <> 0 -> reachable (snd (shouldRateLimit ip now m)).

(** The rendered badge, kept as the count handed to [generateSVG]. *)
Inductive svg : Type :=
| generateSVG (count : number).

Record reply : Type := mk_reply {
  reply_status : Z;
  reply_body : svg
}.

(** Process state: the admission map and the world of the storage layer. *)
Record state : Type := mk_state {
  rateLimitMap : gmap string Z;
  world : Storage.World
}.

(** The exported request handler, for a request arriving when [Date.now()]
    reads [now]. *)
Definition handler (req : http_request) (now : Z) (st : state) : reply * state :=
  let clientIP := getClientIP req in
  let '(isRateLimited, m) := shouldRateLimit clientIP now (rateLimitMap st) in
  let '(outcome, w) :=
    if isRateLimited then (Storage.getCount (world st), world st)
    else Storage.increment (world st) in
  match outcome with
  | Ok count => (mk_reply 200 (generateSVG count), mk_state m w)
  | Throw _ => (mk_reply 500 (generateSVG (Int 0)), mk_state m w)
  end.

(** Serving a sequence of requests in arrival order. *)
Fixpoint serve (reqs : list (http_request * Z)) (st : state) : list reply * state :=
  match reqs with
  | [] => ([], st)
  | (req, now) :: rest =>
      let '(r, st1) := handler req now st in
      let '(rs, st2) := serve rest st1 in
      (r :: rs, st2)
  end.

(** *** Concrete inputs *)

Definition from_address (ip : string) : http_request :=
  mk_req (Some ip) None None.

(** A process that has served nothing yet, in the world [w]. *)
Definition start (w : Storage.World) : state := mk_state ∅ w.

Definition statuses_and_counts (rs : list reply) : list (Z * svg) :=
  map (fun r => (reply_status r, reply_body r)) rs.

(** *** generateSVG: the text of the badge *)

(** The double quote and the line feed. *)
Definition dq : string := String (ascii_of_nat 34) EmptyString.
Definition nl : string := String (ascii_of_nat 10) EmptyString.

(** [ name="value"], with the blank before it. *)
Definition attr (name value : string) : string :=
  " " +:+ name +:+ "=" +:+ dq +:+ value +:+ dq.

(** Prints [twice / 2], for [twice] not negative: a whole number, or one
    ending in [.5]. *)
Definition half_toString (twice : Z) : string :=
  if Z.even twice then Z_toString (twice / 2)
  else Z_toString (twice / 2) +:+ ".5".

Definition label : string := "visits".
Definition labelWidth : Z := Z.of_nat (String.length label) * 7 + 20.
Definition valueWidth (count : number) : Z :=
  Z.of_nat (String.length (number_toString count)) * 7 + 20.
Definition totalWidth (count : number) : Z := labelWidth + valueWidth count.
Definition height : Z := 20.
Definition labelColor : string := "#9D7CFF".
Definition valueColor : string := "#0d1117".
Definition textColor : string := "#ffffff".

Definition text_attrs (x : string) : string :=
  attr "x" x +:+ attr "y" "14" +:+ attr "font-family" "monospace"
  +:+ attr "font-size" "11" +:+ attr "font-weight" "bold"
  +:+ attr "fill" textColor +:+ attr "text-anchor" "middle".

(** The template, up to the line before the value text. *)
Definition svg_head (count : number) : list string :=
  [ "<svg" +:+ attr "xmlns" "http://www.w3.org/2000/svg"
      +:+ attr "width" (Z_toString (totalWidth count))
      +:+ attr "height" (Z_toString height) +:+ ">";
    "  <defs>";
    "    <linearGradient" +:+ attr "id" "labelGradient" +:+ attr "x1" "0%"
      +:+ attr "y1" "0%" +:+ attr "x2" "0%" +:+ attr "y2" "100%" +:+ ">";
    "      <stop" +:+ attr "offset" "0%"
      +:+ attr "style" ("stop-color:" +:+ labelColor +:+ ";stop-opacity:1") +:+ " />";
    "      <stop" +:+ attr "offset" "100%"
      +:+ attr "style" ("stop-color:" +:+ labelColor +:+ ";stop-opacity:0.9") +:+ " />";
    "    </linearGradient>";
    "  </defs>";
    "  ";
    "  <!-- Label background (neon purple) -->";
    "  <rect" +:+ attr "x" "0" +:+ attr "y" "0"
      +:+ attr "width" (Z_toString labelWidth)
      +:+ attr "height" (Z_toString height) +:+ attr "rx" "3"
      +:+ attr "fill" "url(#labelGradient)" +:+ "/>";
    "  ";
    "  <!-- Value background (dark) -->";
    "  <rect" +:+ attr "x" (Z_toString labelWidth) +:+ attr "y" "0"
      +:+ attr "width" (Z_toString (valueWidth count))
      +:+ attr "height" (Z_toString height) +:+ attr "rx" "3"
      +:+ attr "fill" valueColor +:+ "/>";
    "  ";
    "  <!-- Label text -->";
    "  <text" +:+ text_attrs (half_toString labelWidth) +:+ ">"
      +:+ label +:+ "</text>";
    "  ";
    "  <!-- Value text -->" ].

(** The opening tag of the value text: [x] is [labelWidth + valueWidth / 2]. *)
Definition value_text_open (count : number) : string :=
  "  <text" +:+ text_attrs (half_toString (2 * labelWidth + valueWidth count))
  +:+ ">".

(** What follows the count. *)
Definition svg_tail : string := "</text>" +:+ nl +:+ "</svg>".

(** The string [generateSVG(count)] returns. *)
Definition generateSVG_text (count : number) : string :=
  join nl (svg_head count) +:+ nl
  +:+ value_text_open count +:+ number_toString count +:+ svg_tail.

(** The body sent with a reply. *)
Definition svg_text (s : svg) : string :=
  match s with
  | generateSVG count => generateSVG_text count
  end.



End Counter.

(* ===================================================================== *)
(** ** Reading back what was printed *)
(* ===================================================================== *)

Section Decimal.
Import JS.

Lemma digit_char_spec (d : Z) :
  0 <= d < 10 -> is_digit (digit_char d) = true /\ digit_val (digit_char d) = d.
Proof.
  intros Hd.
  assert (Hcases : d = 0 \/ d = 1 \/ d = 2 \/ d = 3 \/ d = 4 \/ d = 5 \/
                   d = 6 \/ d = 7 \/ d = 8 \/ d = 9) by lia.
  repeat (destruct Hcases as [-> | Hcases]; [split; reflexivity |]).
  subst d; split; reflexivity.
Qed.

Lemma digit_not_sign_or_space (c : ascii) :
  is_digit c = true ->
  is_space c = false /\ c <> "-"%char /\ c <> "+"%char.
Proof.
  destruct c as [[] [] [] [] [] [] [] []]; cbv; intros H;
    try discriminate H; repeat split; discriminate.
Qed.

Lemma read_digits_fuel (f : nat) :
  forall (n : Z) (s : string),
    0 <= n < 10 ^ Z.of_nat f ->
    read_digits (digits_fuel f n s) 0 = read_digits s n.
Proof.
  induction f as [| f IH]; intros n s Hn.
  - simpl in *. replace n with 0 by lia. reflexivity.
  - cbn [digits_fuel].
    assert (Hmod : 0 <= n mod 10 < 10) by (apply Z.mod_pos_bound; lia).
    destruct (digit_char_spec _ Hmod) as [Hdig Hval].
    destruct (Z.ltb_spec n 10) as [Hlt | Hge].
    + cbn [read_digits]. rewrite Hdig, Hval.
      rewrite Z.mod_small by lia. f_equal.
    + rewrite IH.
      * cbn [read_digits]. rewrite Hdig, Hval. f_equal.
        pose proof (Z.div_mod n 10). lia.
      * rewrite Nat2Z.inj_succ, Z.pow_succ_r in Hn by lia.
        split; [apply Z.div_pos; lia |].
        apply Z.div_lt_upper_bound; lia.
Qed.

Lemma digits_fuel_head (f : nat) :
  forall (n : Z) (s : string),
    0 <= n ->
    exists c r, digits_fuel (S f) n s = String c r /\ is_digit c = true.
Proof.
  induction f as [| f IH]; intros n s Hn.
  - cbn [digits_fuel].
    assert (Hmod : 0 <= n mod 10 < 10) by (apply Z.mod_pos_bound; lia).
    destruct (digit_char_spec _ Hmod) as [Hdig _].
    destruct (n <? 10); eauto.
  - remember (S f) as g. cbn [digits_fuel]. subst g.
    assert (Hmod : 0 <= n mod 10 < 10) by (apply Z.mod_pos_bound; lia).
    destruct (digit_char_spec _ Hmod) as [Hdig _].
    destruct (n <? 10); [eauto |].
    apply IH. apply Z.div_pos; lia.
Qed.

Lemma digits_fuel_enough (n : Z) :
  0 <= n -> n < 10 ^ Z.of_nat (S (Z.to_nat (Z.log2 n))).
Proof.
  intros Hn.
  destruct (Z.eq_dec n 0) as [-> | Hnz]; [reflexivity |].
  pose proof (Z.log2_nonneg n) as Hl.
  rewrite Nat2Z.inj_succ, Z2Nat.id by lia.
  assert (Hlog : n < 2 ^ Z.succ (Z.log2 n)) by (apply Z.log2_spec; lia).
  assert (Hpow : 2 ^ Z.succ (Z.log2 n) <= 10 ^ Z.succ (Z.log2 n))
    by (apply Z.pow_le_mono_l; lia).
  lia.
Qed.

Lemma parse_unsigned_digits (n : Z) :
  0 <= n -> parse_unsigned (digits n) = Some n.
Proof.
  intros Hn. unfold digits.
  destruct (digits_fuel_head (Z.to_nat (Z.log2 n)) n "" Hn) as (c & r & Heq & Hc).
  unfold parse_unsigned.
  rewrite Heq, Hc, <- Heq.
  rewrite read_digits_fuel
    by (split; [exact Hn | apply digits_fuel_enough; exact Hn]).
  reflexivity.
Qed.

Lemma digits_head (n : Z) :
  0 <= n -> exists c r, digits n = String c r /\ is_digit c = true.
Proof. intros Hn. apply digits_fuel_head. exact Hn. Qed.

(** Reading a printed integer gives the integer back. *)
Lemma parseInt_Z_toString (z : Z) : parseInt_string (Z_toString z) = Int z.
Proof.
  unfold Z_toString, parseInt_string.
  destruct (Z.ltb_spec z 0) as [Hneg | Hpos].
  - cbn [skip_space]. change (is_space "-") with false. cbv iota.
    rewrite parse_unsigned_digits by lia. f_equal. lia.
  - destruct (digits_head z Hpos) as (c & r & Heq & Hc).
    pose proof (parse_unsigned_digits z Hpos) as Hparse.
    rewrite Heq in *.
    destruct (digit_not_sign_or_space c Hc) as (Hsp & Hminus & Hplus).
    cbn [skip_space]. rewrite Hsp.
    destruct c as [[] [] [] [] [] [] [] []];
      try discriminate Hc; try congruence;
      rewrite Hparse; f_equal; lia.
Qed.

Lemma parseInt_number (z : Z) : parseInt (VNum (Int z)) = Int z.
Proof. apply parseInt_Z_toString. Qed.

Lemma parseInt_printed (z : Z) : parseInt (VStr (Z_toString z)) = Int z.
Proof. apply parseInt_Z_toString. Qed.

(** A printed integer is never the empty string. *)
Lemma Z_toString_truthy (z : Z) : string_truthy (Z_toString z) = true.
Proof.
  unfold Z_toString. destruct (Z.ltb_spec z 0) as [Hneg | Hpos]; [reflexivity |].
  destruct (digits_head z Hpos) as (c & r & -> & _). reflexivity.
Qed.

End Decimal.

(* ===================================================================== *)
(** ** Request admission *)
(* ===================================================================== *)

Section Admission.
Import JS Counter.

Implicit Types (ip : string) (t : Z) (m : gmap string Z).

(** No record for the identifier: a record with the request time is
    created and the request is admitted. *)
Lemma admission_no_record ip t m :
  m !! ip = None -> shouldRateLimit ip t m = (false, <[ip := t]> m).
Proof. intros H. unfold shouldRateLimit. rewrite H. reflexivity. Qed.

(** A record at least one window old: it is moved to the request time
    and the request is admitted.  The boundary itself admits. *)
Lemma admission_window_elapsed ip t t0 m :
  m !! ip = Some t0 -> t - t0 >= RATE_LIMIT_WINDOW ->
  shouldRateLimit ip t m = (false, <[ip := t]> m).
Proof.
  intros H Hw. unfold shouldRateLimit. rewrite H. cbn.
  destruct (t0 =? 0); [reflexivity |].
  destruct (Z.ltb_spec (t - t0) RATE_LIMIT_WINDOW); [lia | reflexivity].
Qed.

(** A record younger than the window, with a timestamp other than 0: the
    request is suppressed. *)
Lemma admission_within_window ip t t0 m :
  m !! ip = Some t0 -> t0 <> 0 -> t - t0 < RATE_LIMIT_WINDOW ->
  shouldRateLimit ip t m = (true, m).
Proof.
  intros H Hnz Hw. unfold shouldRateLimit. rewrite H. cbn.
  destruct (Z.eqb_spec t0 0); [contradiction |].
  destruct (Z.ltb_spec (t - t0) RATE_LIMIT_WINDOW); [reflexivity | lia].
Qed.

(** The first request of an identifier, arriving when the clock reads 0,
    leaves a record holding 0. *)
Lemma admission_at_clock_zero ip :
  shouldRateLimit ip 0 ∅ = (false, <[ip := 0]> ∅).
Proof. apply admission_no_record. apply lookup_empty. Qed.

(** A suppressed request found a record with a timestamp other than 0,
    younger than the window. *)
Lemma suppressed_inv ip t m m' :
  shouldRateLimit ip t m = (true, m') ->
  m' = m /\ exists t0, m !! ip = Some t0 /\ t0 <> 0 /\ t - t0 < RATE_LIMIT_WINDOW.
Proof.
  unfold shouldRateLimit. destruct (m !! ip) as [t0 |] eqn:Hl; cbn.
  - destruct (Z.eqb_spec t0 0); [discriminate |].
    destruct (Z.ltb_spec (t - t0) RATE_LIMIT_WINDOW); [| discriminate].
    intros [= <-]. split; [reflexivity |]. exists t0. auto.
  - discriminate.
Qed.

(** An admitted request leaves the request time in the record. *)
Lemma admitted_inv ip t m m' :
  shouldRateLimit ip t m = (false, m') -> m' = <[ip := t]> m.
Proof.
  unfold shouldRateLimit.
  destruct (not_lastRequest (m !! ip)); [intros [= <-]; reflexivity |].
  destruct (_ <? _); [discriminate | intros [= <-]; reflexivity].
Qed.

(** A record whose timestamp is 0 would be taken for no record:
    [!lastRequest] holds for the number 0.  No reachable map holds one. *)
Lemma admission_record_at_zero_readmits ip t m :
  m !! ip = Some 0 -> t - 0 < RATE_LIMIT_WINDOW ->
  shouldRateLimit ip t m = (false, <[ip := t]> m).
Proof. intros H _. unfold shouldRateLimit. rewrite H. reflexivity. Qed.

Lemma admission_record_at_zero_readmits_witness :
  let m : gmap string Z := <["1.2.3.4" := 0]> ∅ in
  shouldRateLimit "1.2.3.4" 0 ∅ = (false, m) /\
  1 - 0 < RATE_LIMIT_WINDOW /\
  shouldRateLimit "1.2.3.4" 1 m = (false, <["1.2.3.4" := 1]> m).
Proof.
  intros m. split; [apply admission_at_clock_zero |]. split; [reflexivity |].
  apply (admission_record_at_zero_readmits "1.2.3.4" 1 m);
    [apply lookup_insert_eq | reflexivity].
Defined.

(** No record of a reachable map holds 0. *)
Lemma reachable_nonzero m :
  reachable m -> forall ip (t0 : Z), m !! ip = Some t0 -> t0 <> 0.
Proof.
  induction 1 as [| ip' now m Hm IH Hnow]; intros ip t0 Hl.
  - rewrite lookup_empty in Hl. discriminate.
  - destruct (decide (ip' = ip)) as [-> | Hne].
    + destruct (shouldRateLimit ip now m) as [[] m'] eqn:Hs; cbn [snd] in Hl.
      * destruct (suppressed_inv _ _ _ _ Hs) as [-> _]. exact (IH _ _ Hl).
      * apply admitted_inv in Hs. subst m'.
        rewrite lookup_insert_eq in Hl. congruence.
    + apply (IH ip t0). rewrite <- Hl. symmetry.
      unfold shouldRateLimit.
      destruct (not_lastRequest (m !! ip')); cbn [snd];
        [apply lookup_insert_ne; exact Hne |].
      destruct (_ <? _); cbn [snd]; [reflexivity |].
      apply lookup_insert_ne. exact Hne.
Qed.

(** C4.  On every admission map a process comes to hold, for every
    identifier and request time: with no record, a record with the
    request time is created and the request is admitted; with a record
    at least 60000 ms old, the boundary included, the record is moved to
    the request time and the request is admitted; with a younger record
    the request is suppressed. *)
Theorem admission_control_cases m ip t :
  reachable m ->
  (m !! ip = None ->
     shouldRateLimit ip t m = (false, <[ip := t]> m)) /\
  (forall t0 : Z, m !! ip = Some t0 -> t - t0 >= 60000 ->
     shouldRateLimit ip t m = (false, <[ip := t]> m)) /\
  (forall t0 : Z, m !! ip = Some t0 -> t - t0 < 60000 ->
     shouldRateLimit ip t m = (true, m)).
Proof.
  intros Hm. split; [apply admission_no_record |]. split.
  - intros t0 Hl Hw. apply (admission_window_elapsed _ _ t0); assumption.
  - intros t0 Hl Hw.
    apply (admission_within_window _ _ t0);
      [exact Hl | exact (reachable_nonzero m Hm ip t0 Hl) | exact Hw].
Qed.

Lemma admission_control_cases_witness :
  let m : gmap string Z := <["1.2.3.4" := 1000]> ∅ in
  reachable m /\
  shouldRateLimit "5.6.7.8" 1000 m = (false, <["5.6.7.8" := 1000]> m) /\
  shouldRateLimit "1.2.3.4" 1001 m = (true, m) /\
  shouldRateLimit "1.2.3.4" 61000 m = (false, <["1.2.3.4" := 61000]> m).
Proof.
  intros m.
  assert (Hm : reachable m).
  { apply (reachable_step "1.2.3.4" 1000 ∅ reachable_start). discriminate. }
  split; [exact Hm |].
  destruct (admission_control_cases m "5.6.7.8" 1000 Hm) as (Hnew & _).
  destruct (admission_control_cases m "1.2.3.4" 1001 Hm) as (_ & _ & Hyoung).
  destruct (admission_control_cases m "1.2.3.4" 61000 Hm) as (_ & Hold & _).
  split; [apply Hnew; reflexivity |].
  split; [apply (Hyoung 1000); [apply lookup_insert_eq | lia] |].
  apply (Hold 1000); [apply lookup_insert_eq | lia].
Defined.

(** C5.  A suppressed request leaves the admission map as it was.  In
    particular, once the identifier has been admitted at [t0], a request
    30 s later that is suppressed leaves the record holding [t0], and
    the request 59 s after [t0] is suppressed. *)
Theorem suppress_leaves_record_unchanged ip :
  (forall t m m', shouldRateLimit ip t m = (true, m') -> m' = m) /\
  (forall (t0 : Z) m0 m1 (b : bool) m2,
     shouldRateLimit ip t0 m0 = (false, m1) ->
     shouldRateLimit ip (t0 + 30 * 1000) m1 = (b, m2) ->
     (b = true -> m2 = m1 /\ m2 !! ip = Some t0) /\
     shouldRateLimit ip (t0 + 59 * 1000) m2 = (true, m2)).
Proof.
  split.
  - intros t m m' Hs. exact (proj1 (suppressed_inv _ _ _ _ Hs)).
  - intros t0 m0 m1 b m2 Ha Hmid.
    apply admitted_inv in Ha. subst m1.
    destruct b.
    + destruct (suppressed_inv _ _ _ _ Hmid) as (-> & t1 & Hl & Hnz & _).
      rewrite lookup_insert_eq in Hl. injection Hl as <-.
      split; [intros _; split; [reflexivity | apply lookup_insert_eq] |].
      apply (admission_within_window _ _ t0);
        [apply lookup_insert_eq | exact Hnz | unfold RATE_LIMIT_WINDOW; lia].
    + split; [discriminate |].
      pose proof Hmid as Hinv. apply admitted_inv in Hinv. subst m2.
      unfold shouldRateLimit in Hmid. rewrite lookup_insert_eq in Hmid.
      cbn in Hmid.
      destruct (Z.eqb_spec t0 0) as [-> | Hnz].
      * apply (admission_within_window _ _ (0 + 30 * 1000));
          [apply lookup_insert_eq | lia | unfold RATE_LIMIT_WINDOW; lia].
      * destruct (Z.ltb_spec (t0 + 30 * 1000 - t0) RATE_LIMIT_WINDOW) as [_ | Hge];
          [discriminate Hmid | unfold RATE_LIMIT_WINDOW in Hge; lia].
Qed.

Lemma suppress_leaves_record_unchanged_witness :
  let m : gmap string Z := <["1.2.3.4" := 1000]> ∅ in
  shouldRateLimit "1.2.3.4" 1000 ∅ = (false, m) /\
  shouldRateLimit "1.2.3.4" 31000 m = (true, m) /\
  m !! "1.2.3.4" = Some 1000 /\
  shouldRateLimit "1.2.3.4" 60000 m = (true, m).
Proof.
  intros m.
  assert (H0 : shouldRateLimit "1.2.3.4" 1000 ∅ = (false, m))
    by (vm_compute; reflexivity).
  assert (H1 : shouldRateLimit "1.2.3.4" (1000 + 30 * 1000) m = (true, m))
    by (vm_compute; reflexivity).
  destruct (suppress_leaves_record_unchanged "1.2.3.4") as [_ H2].
  destruct (H2 1000 ∅ m true m H0 H1) as [H3 H4].
  destruct (H3 eq_refl) as [_ H5].
  split; [exact H0 |]. split; [exact H1 |]. split; [exact H5 | exact H4].
Defined.

End Admission.

(* ===================================================================== *)
(** ** Backend selection *)
(* ===================================================================== *)

Section Selection.
Import JS Storage.

Lemma truthy_getenv (w : World) (name : string) :
  truthy (getenv w name) = true <-> present w name.
Proof.
  unfold getenv, present. destruct (env w !! name) as [s |]; cbn.
  - destruct s as [| c s]; cbn; split.
    + discriminate.
    + intros (s' & [= <-] & Hne). contradiction.
    + intros _. eexists. split; [reflexivity | discriminate].
    + reflexivity.
  - split; [discriminate | intros (s & Hs & _); discriminate].
Qed.

Lemma hasKVConfig_spec (w : World) :
  hasKVConfig w = true <->
  (present w "KV_REST_API_URL" /\ present w "KV_REST_API_TOKEN") \/
  (present w "VERCEL_REST_API_URL" /\ present w "VERCEL_REST_API_TOKEN").
Proof.
  rewrite <- !truthy_getenv. unfold hasKVConfig.
  destruct (truthy (getenv w "KV_REST_API_URL"));
    destruct (truthy (getenv w "KV_REST_API_TOKEN"));
    destruct (truthy (getenv w "VERCEL_REST_API_URL"));
    destruct (truthy (getenv w "VERCEL_REST_API_TOKEN"));
    cbn; intuition discriminate.
Qed.

(** C9.  [getCount] and [setCount] choose the backend from the
    environment of the world they are called in, and from nothing else:
    the store when the standard pair or else the legacy pair is present,
    the file otherwise; a world with another environment is routed by
    that environment, whatever [kv] handle, file and store it has. *)
Theorem backend_choice_follows_environment (w : World) :
  (hasKVConfig w = true <->
     (present w "KV_REST_API_URL" /\ present w "KV_REST_API_TOKEN") \/
     (present w "VERCEL_REST_API_URL" /\ present w "VERCEL_REST_API_TOKEN")) /\
  (forall w2 : World, env w2 = env w -> hasKVConfig w2 = hasKVConfig w) /\
  getCount w = (if hasKVConfig w then readFromKV w else readFromFile w) /\
  (forall count : number,
     setCount count w
       = if hasKVConfig w then writeToKV count w else writeToFile count w) /\
  (forall e2 : gmap string string,
     let w2 := mk_world e2 (kv w) (fs w) (net w) in
     getCount w2 = (if hasKVConfig w2 then readFromKV w2 else readFromFile w2)).
Proof.
  split; [apply hasKVConfig_spec |].
  split; [| repeat split].
  intros w2 He. unfold hasKVConfig, getenv. rewrite He. reflexivity.
Qed.

Lemma backend_choice_follows_environment_witness :
  hasKVConfig (rest_world Unreachable) = true /\
  hasKVConfig (mk_world legacy_env None (mk_fs None None None) Unreachable) = true /\
  hasKVConfig (mk_world ∅ (Some direct_client) (mk_fs None None None) (Holding None))
    = hasKVConfig (local_world None) /\
  getCount (local_world None) = readFromFile (local_world None).
Proof.
  destruct (backend_choice_follows_environment (rest_world Unreachable))
    as (Hstd & _).
  destruct (backend_choice_follows_environment
              (mk_world legacy_env None (mk_fs None None None) Unreachable))
    as (Hleg & _).
  destruct (backend_choice_follows_environment (local_world None))
    as (_ & Henv & Hget & _).
  split; [| split; [| split]].
  - apply Hstd. left. split; eexists; (split; [reflexivity | discriminate]).
  - apply Hleg. right. split; eexists; (split; [reflexivity | discriminate]).
  - apply Henv. reflexivity.
  - exact Hget.
Defined.

End Selection.

(* ===================================================================== *)
(** ** Reading the counter *)
(* ===================================================================== *)

Section Reading.
Import JS Storage.

Lemma getCount_local (w : World) :
  hasKVConfig w = false -> getCount w = readFromFile w.
Proof. intros H. unfold getCount. rewrite H. reflexivity. Qed.

Lemma getCount_rest (w : World) :
  hasKVConfig w = true -> kv w = None -> getCount w = readFromKVREST w.
Proof. intros H Hk. unfold getCount, readFromKV. rewrite H, Hk. reflexivity. Qed.

Lemma getCount_sdk (w : World) (c : client) :
  hasKVConfig w = true -> kv w = Some c -> getCount w = readFromKVSDK c w.
Proof. intros H Hk. unfold getCount, readFromKV. rewrite H, Hk. reflexivity. Qed.

Lemma readFile_contents (w : World) (t : text) :
  read_fault (fs w) = None -> file (fs w) = Some t -> readFile w = Ok t.
Proof. intros Hr Hf. unfold readFile. rewrite Hr, Hf. reflexivity. Qed.

(** What [readFromFile] makes of a file that is there. *)
Lemma readFromFile_contents (w : World) (t : text) :
  read_fault (fs w) = None -> file (fs w) = Some t ->
  readFromFile w =
    match JSON_parse t with
    | Throw e => Throw e
    | Ok json =>
        match get_prop json "count" with
        | Throw e => Throw e
        | Ok c => Ok (parseInt (js_or c (VStr "0")))
        end
    end.
Proof.
  intros Hr Hf. unfold readFromFile. rewrite (readFile_contents w t Hr Hf).
  destruct t as [raw | v]; cbn; [reflexivity |].
  destruct v; reflexivity.
Qed.

Lemma parseInt_default (v : value) :
  truthy v = false -> parseInt (js_or v (VStr "0")) = Int 0.
Proof. intros H. unfold js_or. rewrite H. reflexivity. Qed.

(** C1 (the claim fails here).  A counter file holding the JSON object
    with no fields is present and does not hold the counter, yet
    [getCount] returns 0 and throws nothing. *)
Lemma file_without_count_reads_zero :
  let w := local_world (Some (Json (VObj []))) in
  hasKVConfig w = false /\
  readFile w = Ok (Json (VObj [])) /\
  getCount w = Ok (Int 0) /\
  ~ exists e, getCount w = Throw e.
Proof.
  cbv zeta. repeat split; try (vm_compute; reflexivity).
  intros [e He]. vm_compute in He. discriminate He.
Qed.

(** C1 (as amended).  With the file backend selected and the counter
    file present and readable: contents outside the JSON grammar make
    [getCount] throw the [SyntaxError] of [JSON.parse], and the document
    [null] a [TypeError]; a JSON object is read through its [count]
    field with [parseInt], and reads as 0 when the field is absent or
    falsy. *)
Theorem getCount_present_file (w : World) (t : text) :
  hasKVConfig w = false ->
  read_fault (fs w) = None ->
  file (fs w) = Some t ->
  (forall raw, t = Malformed raw -> getCount w = Throw SyntaxError) /\
  (t = Json VNull -> getCount w = Throw TypeError) /\
  (forall fields, t = Json (VObj fields) ->
     getCount w = Ok (parseInt (js_or (assoc "count" fields) (VStr "0")))) /\
  (forall fields, t = Json (VObj fields) ->
     truthy (assoc "count" fields) = false -> getCount w = Ok (Int 0)).
Proof.
  intros Hc Hr Hf. rewrite (getCount_local w Hc).
  rewrite (readFromFile_contents w t Hr Hf).
  repeat split.
  - intros raw ->. reflexivity.
  - intros ->. reflexivity.
  - intros fields ->. reflexivity.
  - intros fields -> Hfalsy. cbn. rewrite (parseInt_default _ Hfalsy). reflexivity.
Qed.

Lemma getCount_present_file_witness :
  getCount (local_world (Some (Malformed "{count: 1"))) = Throw SyntaxError /\
  getCount (local_world (Some (Json (VObj [("count", VNull)])))) = Ok (Int 0).
Proof.
  split.
  - destruct (getCount_present_file
                (local_world (Some (Malformed "{count: 1")))
                (Malformed "{count: 1") eq_refl eq_refl eq_refl)
      as (Hsyntax & _).
    exact (Hsyntax _ eq_refl).
  - destruct (getCount_present_file
                (local_world (Some (Json (VObj [("count", VNull)]))))
                (Json (VObj [("count", VNull)])) eq_refl eq_refl eq_refl)
      as (_ & _ & _ & Hzero).
    exact (Hzero _ eq_refl eq_refl).
Defined.

Lemma readFromKVREST_answer (w : World) (r : response) :
  net w = Answering r -> readFromKVREST w = read_response r.
Proof. intros H. unfold readFromKVREST. rewrite H. reflexivity. Qed.

Lemma ok_not_404 (r : response) : ok r = true -> (status r =? 404) = false.
Proof. unfold ok. intros H. apply andb_prop in H as [_ H]. lia. Qed.

(** C2 (the claim fails here).  The store answers the read with status
    200 and the JSON object with no fields: a successful response that is
    not a 404 and does not carry the counter.  [getCount] returns 0 and
    throws nothing. *)
Lemma store_body_without_value_reads_zero :
  let r := mk_response 200 (Json (VObj [])) in
  let w := rest_world (Answering r) in
  hasKVConfig w = true /\
  fst (fetch (get_request w) (net w)) = Ok r /\
  ok r = true /\
  getCount w = Ok (Int 0) /\
  ~ exists e, getCount w = Throw e.
Proof.
  cbv zeta. repeat split; try (vm_compute; reflexivity).
  intros [e He]. vm_compute in He. discriminate He.
Qed.

(** C2 (as amended).  With the store selected and read over REST:
    an unreachable store, a status outside 2xx other than 404, and a 2xx
    body outside the JSON grammar each make [getCount] throw, and the
    error is passed on as it is; a 404 reads as 0; a 2xx body that is a
    JSON object is read through [result], else [value], with [parseInt],
    and reads as 0 when both are absent or falsy. *)
Theorem getCount_rest_response (w : World) :
  hasKVConfig w = true ->
  kv w = None ->
  (net w = Unreachable -> getCount w = Throw FetchFailed) /\
  (forall r, net w = Answering r ->
     (status r = 404 -> getCount w = Ok (Int 0)) /\
     (status r <> 404 -> ok r = false ->
        getCount w = Throw (KVReadFailed (status r))) /\
     (ok r = true -> forall raw, body r = Malformed raw ->
        getCount w = Throw SyntaxError) /\
     (ok r = true -> forall fields, body r = Json (VObj fields) ->
        getCount w =
          Ok (parseInt (js_or (js_or (assoc "result" fields) (assoc "value" fields))
                              (VStr "0")))) /\
     (ok r = true -> forall fields, body r = Json (VObj fields) ->
        truthy (assoc "result" fields) = false ->
        truthy (assoc "value" fields) = false ->
        getCount w = Ok (Int 0))).
Proof.
  intros Hc Hk. rewrite (getCount_rest w Hc Hk). split.
  - intros Hn. unfold readFromKVREST. rewrite Hn. reflexivity.
  - intros r Hn. rewrite (readFromKVREST_answer w r Hn). unfold read_response.
    repeat split.
    + intros ->. reflexivity.
    + intros Hne Hok. destruct (Z.eqb_spec (status r) 404); [contradiction |].
      rewrite Hok. reflexivity.
    + intros Hok raw Hb. rewrite (ok_not_404 r Hok), Hok, Hb. reflexivity.
    + intros Hok fields Hb. rewrite (ok_not_404 r Hok), Hok, Hb. reflexivity.
    + intros Hok fields Hb Hres Hval.
      rewrite (ok_not_404 r Hok), Hok, Hb. cbn.
      unfold js_or at 2. rewrite Hres. rewrite (parseInt_default _ Hval).
      reflexivity.
Qed.

Lemma getCount_rest_response_witness :
  getCount (rest_world Unreachable) = Throw FetchFailed /\
  getCount (rest_world (Answering (mk_response 503 (Malformed "Service Unavailable"))))
    = Throw (KVReadFailed 503) /\
  getCount (rest_world (Answering (mk_response 200 (Malformed "<html>"))))
    = Throw SyntaxError /\
  getCount (rest_world (Answering (mk_response 200 (Json (VObj [("result", VNull)])))))
    = Ok (Int 0).
Proof.
  split; [| split; [| split]].
  - destruct (getCount_rest_response (rest_world Unreachable) eq_refl eq_refl)
      as [Hdown _].
    exact (Hdown eq_refl).
  - destruct (getCount_rest_response
                (rest_world (Answering (mk_response 503 (Malformed "Service Unavailable"))))
                eq_refl eq_refl) as [_ Hans].
    destruct (Hans _ eq_refl) as (_ & Hfail & _).
    apply Hfail; [discriminate | reflexivity].
  - destruct (getCount_rest_response
                (rest_world (Answering (mk_response 200 (Malformed "<html>"))))
                eq_refl eq_refl) as [_ Hans].
    destruct (Hans _ eq_refl) as (_ & _ & Hsyn & _).
    exact (Hsyn eq_refl _ eq_refl).
  - destruct (getCount_rest_response
                (rest_world (Answering (mk_response 200 (Json (VObj [("result", VNull)])))))
                eq_refl eq_refl) as [_ Hans].
    destruct (Hans _ eq_refl) as (_ & _ & _ & _ & Hzero).
    exact (Hzero eq_refl _ eq_refl eq_refl eq_refl).
Defined.

(** C7.  Nothing stored yet reads as 0, on either backend, and is not an
    error: a missing counter file; a 404 from the store's read endpoint;
    a client reporting no value for the key.  Any other rejection by the
    file system is thrown on with its code. *)
Theorem getCount_absent_value_is_zero (w : World) :
  (hasKVConfig w = false ->
     read_fault (fs w) = None -> file (fs w) = None ->
     getCount w = Ok (Int 0)) /\
  (hasKVConfig w = true -> kv w = None ->
     forall r, net w = Answering r -> status r = 404 ->
     getCount w = Ok (Int 0)) /\
  (hasKVConfig w = true -> kv w = None -> net w = Holding None ->
     getCount w = Ok (Int 0)) /\
  (hasKVConfig w = true ->
     forall c v, kv w = Some c ->
       kv_get c COUNTER_KEY (net w) = Ok v -> truthy v = false ->
       getCount w = Ok (Int 0)) /\
  (hasKVConfig w = false ->
     forall code, read_fault (fs w) = Some code -> code <> "ENOENT" ->
     getCount w = Throw (SystemError code)).
Proof.
  repeat split.
  - intros Hc Hr Hf. rewrite (getCount_local w Hc).
    unfold readFromFile, readFile. rewrite Hr, Hf. reflexivity.
  - intros Hc Hk r Hn Hs. rewrite (getCount_rest w Hc Hk).
    rewrite (readFromKVREST_answer w r Hn). unfold read_response.
    rewrite Hs. reflexivity.
  - intros Hc Hk Hn. rewrite (getCount_rest w Hc Hk).
    unfold readFromKVREST. rewrite Hn. reflexivity.
  - intros Hc c v Hk Hg Hv. rewrite (getCount_sdk w c Hc Hk).
    unfold readFromKVSDK. rewrite Hg. cbn.
    rewrite (parseInt_default v Hv). reflexivity.
  - intros Hc code Hr Hne. rewrite (getCount_local w Hc).
    unfold readFromFile, readFile. rewrite Hr. cbn.
    destruct (String.eqb_spec code "ENOENT") as [-> | Hd]; [contradiction |].
    destruct code as [| a code]; [reflexivity |].
    destruct a as [[] [] [] [] [] [] [] []]; try reflexivity.
    repeat (destruct code as [| a code]; [reflexivity |];
            destruct a as [[] [] [] [] [] [] [] []]; try reflexivity).
    destruct code; [contradiction | reflexivity].
Qed.

Lemma getCount_absent_value_is_zero_witness :
  getCount (local_world None) = Ok (Int 0) /\
  getCount (rest_world (Answering (mk_response 404 (Malformed "")))) = Ok (Int 0) /\
  getCount (rest_world (Holding None)) = Ok (Int 0) /\
  getCount (sdk_world (Holding None)) = Ok (Int 0) /\
  getCount (unreadable_world "EACCES") = Throw (SystemError "EACCES").
Proof.
  split; [| split; [| split; [| split]]].
  - destruct (getCount_absent_value_is_zero (local_world None)) as (H & _).
    exact (H eq_refl eq_refl eq_refl).
  - destruct (getCount_absent_value_is_zero
                (rest_world (Answering (mk_response 404 (Malformed "")))))
      as (_ & H & _).
    exact (H eq_refl eq_refl _ eq_refl eq_refl).
  - destruct (getCount_absent_value_is_zero (rest_world (Holding None)))
      as (_ & _ & H & _).
    exact (H eq_refl eq_refl eq_refl).
  - destruct (getCount_absent_value_is_zero (sdk_world (Holding None)))
      as (_ & _ & _ & H & _).
    exact (H eq_refl direct_client VNull eq_refl eq_refl eq_refl).
  - destruct (getCount_absent_value_is_zero (unreadable_world "EACCES"))
      as (_ & _ & _ & _ & H).
    apply (H eq_refl "EACCES" eq_refl). discriminate.
Defined.

End Reading.

(* ===================================================================== *)
(** ** Writing the counter and reading it back *)
(* ===================================================================== *)

Section RoundTrip.
Import JS Storage.

Lemma hasKVConfig_env (w1 w2 : World) :
  env w1 = env w2 -> hasKVConfig w1 = hasKVConfig w2.
Proof. intros He. unfold hasKVConfig, getenv. rewrite He. reflexivity. Qed.

(** The three ways a healthy world can be. *)
Lemma healthy_cases (w : World) :
  healthy w ->
  (hasKVConfig w = false /\ read_fault (fs w) = None /\ write_fault (fs w) = None) \/
  (hasKVConfig w = true /\ kv w = None /\ exists v, net w = Holding v) \/
  (hasKVConfig w = true /\ exists c v, kv w = Some c /\ faithful c /\ net w = Holding v).
Proof.
  unfold healthy. destruct (hasKVConfig w) eqn:Hc.
  - intros [[v Hv] Hf]. right. destruct (kv w) as [c |] eqn:Hk.
    + right. split; [reflexivity |]. exists c, v. auto.
    + left. split; [reflexivity |]. split; [reflexivity |]. exists v. exact Hv.
  - intros [Hr Hw]. left. auto.
Qed.

(** What a read finds after a write of the integer [z], per access path. *)
Lemma read_back_file (z : Z) :
  parseInt (js_or (assoc "count" [("count", json_of_number (Int z))]) (VStr "0"))
  = Int z.
Proof.
  cbn. unfold js_or. cbn. destruct (Z.eqb_spec z 0) as [-> | Hz]; cbn.
  - reflexivity.
  - apply parseInt_number.
Qed.

Lemma read_back_store (z : Z) :
  parseInt (js_or (VStr (Z_toString z)) (VStr "0")) = Int z.
Proof.
  unfold js_or. cbn [truthy]. rewrite Z_toString_truthy. apply parseInt_printed.
Qed.

(** On a healthy world a write of an integer succeeds, leaves the world
    healthy, and is what the next read finds. *)
Lemma setCount_then_getCount (w : World) (z : Z) :
  healthy w ->
  exists w',
    setCount (Int z) w = (Ok true, w') /\
    healthy w' /\
    getCount w' = Ok (Int z).
Proof.
  intros Hh.
  destruct (healthy_cases w Hh)
    as [(Hc & Hr & Hw) | [(Hc & Hk & v & Hn) | (Hc & c & v & Hk & Hf & Hn)]].
  - (* the file *)
    unfold setCount, writeToFile, writeFile. rewrite Hc, Hw.
    eexists. split; [reflexivity |].
    set (w' := with_fs w _).
    assert (Hc' : hasKVConfig w' = false)
      by (rewrite <- Hc; apply hasKVConfig_env; reflexivity).
    split.
    + unfold healthy. rewrite Hc'. cbn. auto.
    + rewrite (getCount_local w' Hc').
      rewrite (readFromFile_contents w' _ Hr eq_refl).
      cbn [JSON_parse get_prop]. rewrite read_back_file. reflexivity.
  - (* the store, over REST *)
    unfold setCount, writeToKV, writeToKVREST. rewrite Hc, Hk, Hn.
    eexists. split; [reflexivity |].
    set (w' := with_net w _).
    assert (Hc' : hasKVConfig w' = true)
      by (rewrite <- Hc; apply hasKVConfig_env; reflexivity).
    split.
    + unfold healthy. rewrite Hc'. split; [eexists; reflexivity |].
      cbn. rewrite Hk. discriminate.
    + rewrite (getCount_rest w' Hc' Hk). unfold readFromKVREST. cbn.
      change (read_response _)
        with (Ok (A := number)
                (parseInt (js_or (js_or (VStr (Z_toString z)) VUndefined) (VStr "0")))).
      unfold js_or at 2. cbn [truthy]. rewrite Z_toString_truthy.
      rewrite read_back_store. reflexivity.
  - (* the store, through the client *)
    destruct (Hf COUNTER_KEY v) as [_ Hset].
    unfold setCount, writeToKV, writeToKVSDK. rewrite Hc, Hk, Hn.
    cbn [number_toString]. rewrite Hset.
    eexists. split; [reflexivity |].
    set (w' := with_net w _).
    assert (Hc' : hasKVConfig w' = true)
      by (rewrite <- Hc; apply hasKVConfig_env; reflexivity).
    split.
    + unfold healthy. rewrite Hc'. split; [eexists; reflexivity |].
      cbn. rewrite Hk. intros c' [= <-]. exact Hf.
    + rewrite (getCount_sdk w' c Hc' Hk). unfold readFromKVSDK. cbn [net w' with_net].
      destruct (Hf COUNTER_KEY (Some (Z_toString z))) as [-> _].
      cbn [bind]. rewrite read_back_store. reflexivity.
Qed.

(** C8 (the claim fails here).  The integer 10^21 is a Number, and it
    prints as [1e+21].  [setCount(1e21)] succeeds on a working backend,
    on the file and on the store alike, and the [getCount()] that
    follows returns 1: [parseInt] reads the digits in front of the [e]. *)
Lemma round_trip_fails_at_1e21 :
  let n := Exp 1 21 in
  let w1 := local_world (Some (Json (VObj [("count", VNum n)]))) in
  let w2 := rest_world (Holding (Some "1e+21")) in
  number_value n = Some (10 ^ 21) /\
  healthy (local_world None) /\
  setCount n (local_world None) = (Ok true, w1) /\
  getCount w1 = Ok (Int 1) /\
  healthy (rest_world (Holding None)) /\
  setCount n (rest_world (Holding None)) = (Ok true, w2) /\
  getCount w2 = Ok (Int 1) /\
  Int 1 <> n.
Proof.
  cbv zeta. split; [reflexivity |].
  split; [split; reflexivity |].
  split; [reflexivity |].
  split; [vm_compute; reflexivity |].
  split; [split; [eexists; reflexivity | discriminate] |].
  split; [vm_compute; reflexivity |].
  split; [vm_compute; reflexivity | discriminate].
Qed.

(** C8 (as amended).  Round trip, for the integers a Number prints in
    plain decimal: for [0 <= n < 10^21], after [setCount(n)] has
    succeeded on a world whose backend works, [getCount()] on the world
    it left returns exactly [n], whatever was stored before. *)
Theorem setCount_getCount_round_trip (w w' : World) (n : Z) :
  0 <= n < 10 ^ 21 ->
  healthy w ->
  setCount (Int n) w = (Ok true, w') ->
  getCount w' = Ok (Int n).
Proof.
  intros _ Hh Hset.
  destruct (setCount_then_getCount w n Hh) as (w1 & Hset1 & _ & Hget).
  rewrite Hset in Hset1. injection Hset1 as <-. exact Hget.
Qed.

Lemma setCount_getCount_round_trip_witness :
  let w := local_world (Some (Json (VObj [("count", VNum (Int 7))]))) in
  let w' := local_world (Some (Json (VObj [("count", VNum (Int 42))]))) in
  0 <= 42 < 10 ^ 21 /\ healthy w /\ setCount (Int 42) w = (Ok true, w') /\
  getCount w' = Ok (Int 42).
Proof.
  intros w w'.
  assert (Hh : healthy w) by (split; reflexivity).
  assert (Hset : setCount (Int 42) w = (Ok true, w')) by reflexivity.
  split; [lia |]. split; [exact Hh |]. split; [exact Hset |].
  apply (setCount_getCount_round_trip w w' 42); [lia | exact Hh | exact Hset].
Defined.

(** *** Counting up *)

Lemma fresh_reads_zero (w : World) :
  fresh w -> healthy w /\ getCount w = Ok (Int 0).
Proof.
  intros [Hh Hempty]. split; [exact Hh |].
  destruct (healthy_cases w Hh)
    as [(Hc & Hr & Hw) | [(Hc & Hk & v & Hn) | (Hc & c & v & Hk & Hf & Hn)]];
    rewrite Hc in Hempty.
  - rewrite (getCount_local w Hc). unfold readFromFile, readFile.
    rewrite Hr, Hempty. reflexivity.
  - rewrite (getCount_rest w Hc Hk). unfold readFromKVREST.
    rewrite Hempty. reflexivity.
  - rewrite (getCount_sdk w c Hc Hk). unfold readFromKVSDK. rewrite Hempty.
    destruct (Hf COUNTER_KEY None) as [-> _]. reflexivity.
Qed.

(** One [increment] on a healthy world holding [z]. *)
Lemma increment_step (w : World) (z : Z) :
  healthy w -> getCount w = Ok (Int z) ->
  exists w',
    increment w = (Ok (Int (z + 1)), w') /\
    healthy w' /\ getCount w' = Ok (Int (z + 1)).
Proof.
  intros Hh Hget.
  destruct (setCount_then_getCount w (z + 1) Hh) as (w' & Hset & Hh' & Hget').
  exists w'. unfold increment. rewrite Hget. cbn [add1]. rewrite Hset. auto.
Qed.

Lemma increments_from (k : nat) :
  forall (w : World) (z : Z),
    healthy w -> getCount w = Ok (Int z) ->
    fst (increments k w)
      = map (fun i : nat => Ok (Int (z + Z.of_nat i))) (seq 1 k).
Proof.
  induction k as [| k IH]; intros w z Hh Hget; [reflexivity |].
  destruct (increment_step w z Hh Hget) as (w' & Hinc & Hh' & Hget').
  cbn [increments]. rewrite Hinc.
  specialize (IH w' (z + 1) Hh' Hget').
  destruct (increments k w') as [rs w2]. cbn [fst] in *. rewrite IH.
  cbn [seq map]. apply (f_equal2 cons).
  - do 2 f_equal.
  - rewrite <- (seq_shift k 1), map_map.
    apply map_ext. intros i. do 2 f_equal. lia.
Qed.

(** C6.  [increment] reads the count, stores the count plus one and
    returns it; so on a fresh backend one call returns 1 and [k] calls in
    a row return 1, 2, ..., [k]. *)
Theorem increment_counts_up (w : World) :
  (forall current w',
     getCount w = Ok current ->
     setCount (add1 current) w = (Ok true, w') ->
     increment w = (Ok (add1 current), w')) /\
  (fresh w ->
     fst (increment w) = Ok (Int 1) /\
     forall k : nat,
       fst (increments k w) = map (fun i : nat => Ok (Int (Z.of_nat i))) (seq 1 k) /\
       ((0 < k)%nat ->
        last (fst (increments k w)) = Some (Ok (Int (Z.of_nat k))))).
Proof.
  split.
  - intros current w' Hget Hset. unfold increment. rewrite Hget, Hset. reflexivity.
  - intros Hf. destruct (fresh_reads_zero w Hf) as [Hh Hget]. split.
    + destruct (increment_step w 0 Hh Hget) as (w' & -> & _). reflexivity.
    + intros k.
      assert (Hall : fst (increments k w)
                     = map (fun i : nat => Ok (Int (Z.of_nat i))) (seq 1 k)).
      { rewrite (increments_from k w 0 Hh Hget).
        apply map_ext. intros i. reflexivity. }
      split; [exact Hall |].
      intros Hk. rewrite Hall.
      destruct k as [| k]; [lia |].
      rewrite seq_S, map_app. cbn [map]. rewrite last_snoc. reflexivity.
Qed.

Lemma increment_counts_up_witness :
  fresh (local_world None) /\
  fst (increment (local_world None)) = Ok (Int 1) /\
  fst (increments 3 (rest_world (Holding None)))
    = [Ok (Int 1); Ok (Int 2); Ok (Int 3)] /\
  last (fst (increments 5 (sdk_world (Holding None)))) = Some (Ok (Int 5)).
Proof.
  assert (Hfile : fresh (local_world None)) by (repeat split).
  assert (Hrest : fresh (rest_world (Holding None))).
  { split; [split; [eexists; reflexivity | discriminate] | reflexivity]. }
  assert (Hsdk : fresh (sdk_world (Holding None))).
  { split; [split; [eexists; reflexivity |] | reflexivity].
    intros c [= <-] key v. split; [destruct v; reflexivity | reflexivity]. }
  destruct (increment_counts_up (local_world None)) as [_ H1].
  destruct (increment_counts_up (rest_world (Holding None))) as [_ H2].
  destruct (increment_counts_up (sdk_world (Holding None))) as [_ H3].
  split; [exact Hfile |].
  split; [exact (proj1 (H1 Hfile)) |].
  split; [exact (proj1 (proj2 (H2 Hrest) 3%nat)) |].
  apply (proj2 (proj2 (H3 Hsdk) 5%nat)). lia.
Defined.

End RoundTrip.

(* ===================================================================== *)
(** ** The request handler *)
(* ===================================================================== *)

Section Handler.
Import JS Storage Counter.

Implicit Types (req : http_request) (now : Z) (st : state).

(** An admitted request whose [increment] succeeds. *)
Lemma handler_admitted req now st m count w :
  shouldRateLimit (getClientIP req) now (rateLimitMap st) = (false, m) ->
  increment (world st) = (Ok count, w) ->
  handler req now st = (mk_reply 200 (generateSVG count), mk_state m w).
Proof. intros Hs Hi. unfold handler. rewrite Hs, Hi. reflexivity. Qed.

(** A suppressed request: the count is read, nothing is written. *)
Lemma handler_suppressed req now st m count :
  shouldRateLimit (getClientIP req) now (rateLimitMap st) = (true, m) ->
  getCount (world st) = Ok count ->
  handler req now st = (mk_reply 200 (generateSVG count), mk_state m (world st)).
Proof. intros Hs Hg. unfold handler. rewrite Hs, Hg. reflexivity. Qed.

(** An admitted request whose [increment] throws: the reply is the 500
    badge showing 0, and the admission map keeps the new record. *)
Lemma handler_admitted_failure req now st m e w :
  shouldRateLimit (getClientIP req) now (rateLimitMap st) = (false, m) ->
  increment (world st) = (Throw e, w) ->
  handler req now st = (mk_reply 500 (generateSVG (Int 0)), mk_state m w) /\
  m = <[getClientIP req := now]> (rateLimitMap st).
Proof.
  intros Hs Hi. unfold handler. rewrite Hs, Hi.
  split; [reflexivity | exact (admitted_inv _ _ _ _ Hs)].
Qed.

(** C3.  End to end, on a fresh backend and an empty admission map,
    three requests from "1.2.3.4" at 0 s, 10 s and 70 s after the first
    one, which [Date.now()] times at [origin] (a reading of the clock
    after the epoch, so not 0): the first is admitted and shows 1, the
    second is suppressed and shows 1, the third is admitted, the window
    being over, and shows 2. *)
Theorem scenario_from_nonzero_origin (w : World) (origin : Z) :
  fresh w -> origin <> 0 ->
  statuses_and_counts
    (fst (serve [(from_address "1.2.3.4", origin);
                 (from_address "1.2.3.4", origin + 10 * 1000);
                 (from_address "1.2.3.4", origin + 70 * 1000)]
                (start w)))
  = [(200, generateSVG (Int 1)); (200, generateSVG (Int 1));
     (200, generateSVG (Int 2))].
Proof.
  intros Hf Hnz. destruct (fresh_reads_zero w Hf) as [Hh Hget].
  destruct (increment_step w 0 Hh Hget) as (w1 & Hi1 & Hh1 & Hget1).
  destruct (increment_step w1 1 Hh1 Hget1) as (w2 & Hi2 & _ & _).
  set (ip := "1.2.3.4").
  assert (Hip : getClientIP (from_address ip) = ip) by reflexivity.
  cbn [serve].
  rewrite (handler_admitted _ _ (start w) (<[ip := origin]> ∅) (Int 1) w1).
  2: { rewrite Hip. apply admission_no_record. apply lookup_empty. }
  2: exact Hi1.
  rewrite (handler_suppressed _ _ _ (<[ip := origin]> ∅) (Int 1)).
  2: { rewrite Hip. cbn [rateLimitMap].
       apply (admission_within_window _ _ origin);
         [apply lookup_insert_eq | exact Hnz | unfold RATE_LIMIT_WINDOW; lia]. }
  2: exact Hget1.
  rewrite (handler_admitted _ _ _
             (<[ip := origin + 70 * 1000]> (<[ip := origin]> ∅)) (Int 2) w2).
  2: { rewrite Hip. cbn [rateLimitMap].
       apply (admission_window_elapsed _ _ origin);
         [apply lookup_insert_eq | unfold RATE_LIMIT_WINDOW; lia]. }
  2: exact Hi2.
  reflexivity.
Qed.

Lemma scenario_from_nonzero_origin_witness :
  fresh (local_world None) /\ 1700000000000 <> 0 /\
  statuses_and_counts
    (fst (serve [(from_address "1.2.3.4", 1700000000000);
                 (from_address "1.2.3.4", 1700000000000 + 10 * 1000);
                 (from_address "1.2.3.4", 1700000000000 + 70 * 1000)]
                (start (local_world None))))
  = [(200, generateSVG (Int 1)); (200, generateSVG (Int 1));
     (200, generateSVG (Int 2))].
Proof.
  assert (Hf : fresh (local_world None)) by (repeat split).
  assert (Hnz : 1700000000000 <> 0) by discriminate.
  split; [exact Hf |]. split; [exact Hnz |].
  exact (scenario_from_nonzero_origin (local_world None) 1700000000000 Hf Hnz).
Defined.

(** Were the first request timed at 0, the one millisecond of the epoch
    itself, its record would hold 0 and be taken for no record: all
    three requests would be admitted. *)
Lemma scenario_at_clock_zero :
  statuses_and_counts
    (fst (serve [(from_address "1.2.3.4", 0);
                 (from_address "1.2.3.4", 10 * 1000);
                 (from_address "1.2.3.4", 70 * 1000)]
                (start (local_world None))))
  = [(200, generateSVG (Int 1)); (200, generateSVG (Int 2));
     (200, generateSVG (Int 3))].
Proof. vm_compute. reflexivity. Qed.

(** C10.  The admission is settled before storage is touched.  When a
    request is admitted and its [increment] throws, the reply is the 500
    badge, the admission map keeps the new record for the identifier, the
    world is as the failed [increment] left it, and a retry of the same
    identifier before the window is over is suppressed.  [now] is the
    reading of [Date.now()] for the failed request, a time after the
    epoch, so not 0. *)
Theorem failed_request_consumes_slot req now st e w (retry : Z) :
  fst (shouldRateLimit (getClientIP req) now (rateLimitMap st)) = false ->
  increment (world st) = (Throw e, w) ->
  now <> 0 -> retry - now < RATE_LIMIT_WINDOW ->
  let st' := snd (handler req now st) in
  fst (handler req now st) = mk_reply 500 (generateSVG (Int 0)) /\
  rateLimitMap st' = <[getClientIP req := now]> (rateLimitMap st) /\
  rateLimitMap st' !! getClientIP req = Some now /\
  world st' = w /\
  shouldRateLimit (getClientIP req) retry (rateLimitMap st')
    = (true, rateLimitMap st').
Proof.
  intros Ha Hi Hnz Hr.
  destruct (shouldRateLimit (getClientIP req) now (rateLimitMap st))
    as [b m] eqn:Hs.
  cbn [fst] in Ha. subst b.
  destruct (handler_admitted_failure _ _ _ _ _ _ Hs Hi) as [Hh ->].
  rewrite Hh. cbn.
  split; [reflexivity |]. split; [reflexivity |].
  split; [apply lookup_insert_eq |]. split; [reflexivity |].
  apply (admission_within_window _ _ now);
    [apply lookup_insert_eq | exact Hnz | exact Hr].
Qed.

Lemma failed_request_consumes_slot_witness :
  let st := start (readonly_world None "EACCES") in
  let req := from_address "1.2.3.4" in
  let st' := snd (handler req 1700000000000 st) in
  fst (handler req 1700000000000 st) = mk_reply 500 (generateSVG (Int 0)) /\
  rateLimitMap st' !! "1.2.3.4" = Some 1700000000000 /\
  world st' = world st /\
  shouldRateLimit "1.2.3.4" (1700000000000 + 59999) (rateLimitMap st')
    = (true, rateLimitMap st').
Proof.
  intros st req st'.
  destruct (failed_request_consumes_slot req 1700000000000 st
              (SystemError "EACCES") (world st) (1700000000000 + 59999))
    as (H1 & _ & H3 & H4 & H5).
  - vm_compute. reflexivity.
  - vm_compute. reflexivity.
  - discriminate.
  - vm_compute. reflexivity.
  - split; [exact H1 |]. split; [exact H3 |]. split; [exact H4 | exact H5].
Defined.

(** Were the failed request timed at 0, the one millisecond of the epoch
    itself, the record kept would hold 0 and the retry would be admitted
    again. *)
Lemma failed_request_at_clock_zero_retry_admitted :
  let st := start (readonly_world None "EACCES") in
  let req := from_address "1.2.3.4" in
  increment (world st) = (Throw (SystemError "EACCES"), world st) /\
  fst (handler req 0 st) = mk_reply 500 (generateSVG (Int 0)) /\
  rateLimitMap (snd (handler req 0 st)) !! "1.2.3.4" = Some 0 /\
  fst (shouldRateLimit (getClientIP req) 1 (rateLimitMap (snd (handler req 0 st))))
    = false.
Proof. cbv zeta. repeat split; vm_compute; reflexivity. Qed.

End Handler.

(* ===================================================================== *)
(** ** More on request admission *)
(* ===================================================================== *)

Section AdmissionMore.
Import JS Counter.

Implicit Types (ip : string) (t : Z) (m : gmap string Z).

(** The outcome for an identifier is decided by its own record alone. *)
Lemma outcome_local ip t m1 m2 :
  m1 !! ip = m2 !! ip ->
  fst (shouldRateLimit ip t m1) = fst (shouldRateLimit ip t m2).
Proof.
  intros H. unfold shouldRateLimit. rewrite H.
  destruct (not_lastRequest (m2 !! ip)); [reflexivity |].
  destruct (_ <? _); reflexivity.
Qed.

Lemma other_record_kept ip ip' t m :
  ip <> ip' -> snd (shouldRateLimit ip t m) !! ip' = m !! ip'.
Proof.
  intros Hne. unfold shouldRateLimit.
  destruct (not_lastRequest (m !! ip)); cbn [snd].
  - apply lookup_insert_ne. exact Hne.
  - destruct (_ <? _); cbn [snd]; [reflexivity |].
    apply lookup_insert_ne. exact Hne.
Qed.

(** X1.  Identifiers do not interfere: a request of one identifier
    leaves the record of every other identifier as it was, and so does
    not change what the other identifier would be answered. *)
Theorem identifiers_are_independent ip ip' t m :
  ip <> ip' ->
  snd (shouldRateLimit ip t m) !! ip' = m !! ip' /\
  forall t' : Z,
    fst (shouldRateLimit ip' t' (snd (shouldRateLimit ip t m)))
    = fst (shouldRateLimit ip' t' m).
Proof.
  intros Hne. split; [apply other_record_kept; exact Hne |].
  intros t'. apply outcome_local. apply other_record_kept. exact Hne.
Qed.

Lemma identifiers_are_independent_witness :
  let m : gmap string Z := <["10.0.0.1" := 5000]> ∅ in
  "10.0.0.1" <> "10.0.0.2" /\
  snd (shouldRateLimit "10.0.0.1" 6000 m) !! "10.0.0.2" = m !! "10.0.0.2" /\
  fst (shouldRateLimit "10.0.0.2" 6000 (snd (shouldRateLimit "10.0.0.1" 6000 m)))
  = fst (shouldRateLimit "10.0.0.2" 6000 m).
Proof.
  intros m.
  assert (Hne : "10.0.0.1" <> "10.0.0.2") by discriminate.
  destruct (identifiers_are_independent "10.0.0.1" "10.0.0.2" 6000 m Hne)
    as [H1 H2].
  split; [exact Hne |]. split; [exact H1 | exact (H2 6000)].
Defined.

(** X2.  Two admissions of one identifier are at least a window apart,
    whatever other identifiers did in between, unless the earlier one
    happened with the clock reading 0. *)
Theorem admissions_a_window_apart ip (t1 t2 : Z) m0 m1 m2 m3 :
  shouldRateLimit ip t1 m0 = (false, m1) ->
  t1 <> 0 ->
  m2 !! ip = m1 !! ip ->
  shouldRateLimit ip t2 m2 = (false, m3) ->
  RATE_LIMIT_WINDOW <= t2 - t1 /\ m3 !! ip = Some t2.
Proof.
  intros H1 Hnz Hsame H2.
  apply admitted_inv in H1. subst m1.
  rewrite lookup_insert_eq in Hsame.
  pose proof (admitted_inv _ _ _ _ H2) as ->.
  split; [| apply lookup_insert_eq].
  unfold shouldRateLimit in H2. rewrite Hsame in H2. cbn in H2.
  destruct (Z.eqb_spec t1 0); [contradiction |].
  destruct (Z.ltb_spec (t2 - t1) RATE_LIMIT_WINDOW); [discriminate | lia].
Qed.

Lemma admissions_a_window_apart_witness :
  let m1 : gmap string Z := <["10.0.0.1" := 1000]> ∅ in
  let m2 : gmap string Z := <["10.0.0.2" := 2000]> m1 in
  RATE_LIMIT_WINDOW <= 61000 - 1000 /\
  <["10.0.0.1" := 61000]> m2 !! "10.0.0.1" = Some 61000.
Proof.
  intros m1 m2.
  apply (admissions_a_window_apart "10.0.0.1" 1000 61000 ∅ m1 m2
           (<["10.0.0.1" := 61000]> m2)).
  - vm_compute. reflexivity.
  - discriminate.
  - vm_compute. reflexivity.
  - vm_compute. reflexivity.
Defined.

(** X3.  The admission map never loses an entry: after a request the
    identifiers on record are those on record before, and the one that
    asked. *)
Theorem admission_map_only_grows ip t m :
  dom (snd (shouldRateLimit ip t m)) = {[ ip ]} ∪ dom m.
Proof.
  unfold shouldRateLimit.
  destruct (m !! ip) as [t0 |] eqn:Hl; cbn [not_lastRequest].
  - assert (Hin : ip ∈ dom m) by (apply elem_of_dom; eauto).
    destruct (t0 =? 0); cbn [snd].
    + apply dom_insert_L.
    + destruct (_ <? _); cbn [snd]; [| apply dom_insert_L].
      symmetry. apply subseteq_union_1_L, singleton_subseteq_l. exact Hin.
  - cbn [snd]. apply dom_insert_L.
Qed.

End AdmissionMore.

(* ===================================================================== *)
(** ** More on the request handler *)
(* ===================================================================== *)

Section HandlerMore.
Import JS Storage Counter.

Implicit Types (req : http_request) (now : Z) (st : state).

(** X4.  A suppressed request writes nothing: the admission map and the
    world are left exactly as they were, and the reply shows the count
    read from storage (or is the 500 badge when the read throws). *)
Theorem suppressed_request_is_read_only req now st :
  fst (shouldRateLimit (getClientIP req) now (rateLimitMap st)) = true ->
  snd (handler req now st) = st /\
  fst (handler req now st)
  = match getCount (world st) with
    | Ok count => mk_reply 200 (generateSVG count)
    | Throw _ => mk_reply 500 (generateSVG (Int 0))
    end.
Proof.
  intros Hs.
  destruct (shouldRateLimit (getClientIP req) now (rateLimitMap st))
    as [b m] eqn:Heq.
  cbn [fst] in Hs. subst b.
  destruct (suppressed_inv _ _ _ _ Heq) as [-> _].
  unfold handler. rewrite Heq.
  destruct st as [m0 w0]. cbn [world rateLimitMap].
  destruct (getCount w0); split; reflexivity.
Qed.

Lemma suppressed_request_is_read_only_witness :
  let st := mk_state (<["1.2.3.4" := 1000]> ∅)
                     (local_world (Some (Json (VObj [("count", VNum (Int 7))])))) in
  snd (handler (from_address "1.2.3.4") 2000 st) = st /\
  fst (handler (from_address "1.2.3.4") 2000 st) = mk_reply 200 (generateSVG (Int 7)).
Proof.
  intros st.
  apply (suppressed_request_is_read_only (from_address "1.2.3.4") 2000 st).
  vm_compute. reflexivity.
Defined.




(** X6.  After an admitted request served with the clock reading [now],
    not 0, every further request of the same identifier that comes
    before the window is over gets the count as stored, and the whole
    burst leaves the admission map and the world untouched. *)
Theorem burst_within_window_is_absorbed (ip : string) (now : Z)
    (burst : list (http_request * Z)) st (count : number) :
  rateLimitMap st !! ip = Some now ->
  now <> 0 ->
  Forall (fun rq => getClientIP (fst rq) = ip /\ snd rq - now < RATE_LIMIT_WINDOW)
         burst ->
  getCount (world st) = Ok count ->
  serve burst st
  = (map (fun _ => mk_reply 200 (generateSVG count)) burst, st).
Proof.
  intros Hrec Hnz Hall Hget. induction Hall as [| [req t] rest [Hip Ht] _ IH].
  - reflexivity.
  - cbn [fst snd] in Hip, Ht. cbn [serve].
    assert (Hs : shouldRateLimit (getClientIP req) t (rateLimitMap st)
                 = (true, rateLimitMap st)).
    { rewrite Hip. apply (admission_within_window _ _ now); assumption. }
    rewrite (handler_suppressed _ _ _ _ _ Hs Hget).
    replace (mk_state (rateLimitMap st) (world st)) with st by (destruct st; reflexivity).
    rewrite IH. reflexivity.
Qed.

Lemma burst_within_window_is_absorbed_witness :
  let st := mk_state (<["1.2.3.4" := 1000]> ∅)
                     (local_world (Some (Json (VObj [("count", VNum (Int 7))])))) in
  serve [(from_address "1.2.3.4", 1001); (from_address "1.2.3.4", 60999)] st
  = ([mk_reply 200 (generateSVG (Int 7)); mk_reply 200 (generateSVG (Int 7))], st).
Proof.
  intros st.
  apply (burst_within_window_is_absorbed "1.2.3.4" 1000
           [(from_address "1.2.3.4", 1001); (from_address "1.2.3.4", 60999)]
           st (Int 7)).
  - vm_compute. reflexivity.
  - discriminate.
  - repeat constructor.
  - vm_compute. reflexivity.
Defined.

(** X7.  A 500 reply always carries the badge for 0, and is given
    exactly when the storage call of the request threw; a 200 reply
    carries the count that call returned. *)
Theorem reply_reflects_storage_outcome req now st :
  let outcome :=
    if fst (shouldRateLimit (getClientIP req) now (rateLimitMap st))
    then getCount (world st)
    else fst (increment (world st)) in
  (forall count, outcome = Ok count ->
     fst (handler req now st) = mk_reply 200 (generateSVG count)) /\
  (forall e, outcome = Throw e ->
     fst (handler req now st) = mk_reply 500 (generateSVG (Int 0))) /\
  (reply_status (fst (handler req now st)) = 500 ->
     reply_body (fst (handler req now st)) = generateSVG (Int 0) /\
     exists e, outcome = Throw e).
Proof.
  unfold handler.
  destruct (shouldRateLimit (getClientIP req) now (rateLimitMap st)) as [[] m];
    cbn [fst].
  - destruct (getCount (world st)) as [c | e]; cbn;
      repeat split; try congruence; try discriminate; eauto.
  - destruct (increment (world st)) as [[c | e] w]; cbn;
      repeat split; try congruence; try discriminate; eauto.
Qed.

End HandlerMore.

(* ===================================================================== *)
(** ** More on the storage layer *)
(* ===================================================================== *)

Section StorageMore.
Import JS Storage.

(** X8.  A write touches the selected medium only: the environment and
    the [kv] handle are never changed, a write to the file leaves the
    store alone and a write to the store leaves the file alone; the same
    holds for [increment]. *)
Theorem writes_touch_only_selected_medium (count : number) (w : World) :
  let w1 := snd (setCount count w) in
  let w2 := snd (increment w) in
  (env w1 = env w /\ kv w1 = kv w /\
   (hasKVConfig w = false -> net w1 = net w) /\
   (hasKVConfig w = true -> fs w1 = fs w)) /\
  (env w2 = env w /\ kv w2 = kv w /\
   (hasKVConfig w = false -> net w2 = net w) /\
   (hasKVConfig w = true -> fs w2 = fs w)).
Proof.
  assert (Hset : forall n,
    let w1 := snd (setCount n w) in
    env w1 = env w /\ kv w1 = kv w /\
    (hasKVConfig w = false -> net w1 = net w) /\
    (hasKVConfig w = true -> fs w1 = fs w)).
  { intros n. unfold setCount. destruct (hasKVConfig w).
    - unfold writeToKV, writeToKVSDK, writeToKVREST.
      destruct (kv w) as [c |] eqn:Hk.
      + destruct (kv_set c _ _ _) as [[] s]; cbn;
          repeat split; intros; first [reflexivity | discriminate | congruence].
      + destruct (fetch _ _) as [[r |] s]; [destruct (negb (ok r)) |];
          cbn; repeat split; intros; first [reflexivity | discriminate | congruence].
    - unfold writeToFile, writeFile.
      destruct (write_fault (fs w)) as [[code [| rest]] |]; cbn;
        repeat split; intros; first [reflexivity | discriminate | congruence]. }
  split; [apply Hset |].
  unfold increment. destruct (getCount w) as [c | e].
  - specialize (Hset (add1 c)). cbv zeta in Hset.
    destruct (setCount (add1 c) w) as [[] w1]; exact Hset.
  - cbn. repeat split.
Qed.



(** X10.  On the file backend, a successful [increment] has read a
    count, returns that count plus one, and leaves [counter.json]
    holding exactly the value it returns. *)
Theorem successful_increment_is_persisted (w w' : World) (next : number) :
  hasKVConfig w = false ->
  increment w = (Ok next, w') ->
  (exists current, getCount w = Ok current /\ next = add1 current) /\
  file (fs w') = Some (Json (VObj [("count", json_of_number next)])).
Proof.
  intros Hc. unfold increment.
  destruct (getCount w) as [current | e]; [| discriminate].
  unfold setCount, writeToFile, writeFile. rewrite Hc.
  destruct (write_fault (fs w)); [discriminate |].
  intros [= <- <-]. split; [eauto | reflexivity].
Qed.

Lemma successful_increment_is_persisted_witness :
  let w := local_world (Some (Json (VObj [("count", VStr "41")]))) in
  (exists current, getCount w = Ok current /\ Int 42 = add1 current) /\
  file (fs (snd (increment w))) = Some (Json (VObj [("count", VNum (Int 42))])).
Proof.
  intros w.
  apply (successful_increment_is_persisted w (snd (increment w)) (Int 42));
    reflexivity.
Defined.

(** X11.  A count that reads as NaN (text that does not start with a
    number) is not an error, and [increment] returns NaN for it.  On the
    file backend the write stores [null], so the next read is 0; on the
    store the text "NaN" is stored and every later read is NaN again. *)
Theorem nan_count_after_increment (w : World) :
  healthy w ->
  getCount w = Ok NaN ->
  exists w',
    increment w = (Ok NaN, w') /\
    (hasKVConfig w = false -> getCount w' = Ok (Int 0)) /\
    (hasKVConfig w = true -> getCount w' = Ok NaN).
Proof.
  intros Hh Hget. unfold increment. rewrite Hget. cbn [add1].
  destruct (healthy_cases w Hh)
    as [(Hc & Hr & Hw) | [(Hc & Hk & v & Hn) | (Hc & c & v & Hk & Hf & Hn)]].
  - unfold setCount, writeToFile, writeFile. rewrite Hc, Hw.
    eexists. split; [reflexivity |]. split; [| discriminate]. intros _.
    set (w' := with_fs w _).
    assert (Hc' : hasKVConfig w' = false)
      by (rewrite <- Hc; apply hasKVConfig_env; reflexivity).
    rewrite (getCount_local w' Hc').
    rewrite (readFromFile_contents w' _ Hr eq_refl). reflexivity.
  - unfold setCount, writeToKV, writeToKVREST. rewrite Hc, Hk, Hn.
    eexists. split; [reflexivity |]. split; [discriminate |]. intros _.
    set (w' := with_net w _).
    assert (Hc' : hasKVConfig w' = true)
      by (rewrite <- Hc; apply hasKVConfig_env; reflexivity).
    rewrite (getCount_rest w' Hc' Hk). reflexivity.
  - destruct (Hf COUNTER_KEY v) as [_ Hset].
    unfold setCount, writeToKV, writeToKVSDK. rewrite Hc, Hk, Hn.
    cbn [number_toString]. rewrite Hset.
    eexists. split; [reflexivity |]. split; [discriminate |]. intros _.
    set (w' := with_net w _).
    assert (Hc' : hasKVConfig w' = true)
      by (rewrite <- Hc; apply hasKVConfig_env; reflexivity).
    rewrite (getCount_sdk w' c Hc' Hk). unfold readFromKVSDK. cbn [net w' with_net].
    destruct (Hf COUNTER_KEY (Some "NaN")) as [-> _]. reflexivity.
Qed.

Lemma nan_count_after_increment_witness :
  let w := local_world (Some (Json (VObj [("count", VStr "many")]))) in
  exists w',
    increment w = (Ok NaN, w') /\
    (hasKVConfig w = false -> getCount w' = Ok (Int 0)) /\
    (hasKVConfig w = true -> getCount w' = Ok NaN).
Proof.
  intros w. apply (nan_count_after_increment w).
  - split; reflexivity.
  - reflexivity.
Defined.

(** X12.  On a working backend [setCount] of any integer, negative ones
    included, succeeds; a second [setCount] replaces the first, and an
    [increment] after it returns and stores the integer plus one. *)
Theorem set_overwrites_and_increment_follows (w : World) (a b : Z) :
  healthy w ->
  exists w1 w2 w3,
    setCount (Int a) w = (Ok true, w1) /\
    setCount (Int b) w1 = (Ok true, w2) /\
    getCount w2 = Ok (Int b) /\
    increment w2 = (Ok (Int (b + 1)), w3) /\
    getCount w3 = Ok (Int (b + 1)).
Proof.
  intros Hh.
  destruct (setCount_then_getCount w a Hh) as (w1 & H1 & Hh1 & _).
  destruct (setCount_then_getCount w1 b Hh1) as (w2 & H2 & Hh2 & Hg2).
  destruct (increment_step w2 b Hh2 Hg2) as (w3 & H3 & _ & Hg3).
  exists w1, w2, w3. auto.
Qed.

Lemma set_overwrites_and_increment_follows_witness :
  exists w1 w2 w3,
    setCount (Int 100) (rest_world (Holding None)) = (Ok true, w1) /\
    setCount (Int (-3)) w1 = (Ok true, w2) /\
    getCount w2 = Ok (Int (-3)) /\
    increment w2 = (Ok (Int (-3 + 1)), w3) /\
    getCount w3 = Ok (Int (-3 + 1)).
Proof.
  apply (set_overwrites_and_increment_follows (rest_world (Holding None)) 100 (-3)).
  split; [eexists; reflexivity | discriminate].
Defined.

End StorageMore.

(* ===================================================================== *)
(** ** Configuration, access paths and loading *)
(* ===================================================================== *)

Section AccessPaths.
Import JS Storage.

Lemma getenv_set (w : World) (name x : string) :
  env w !! name = Some x -> x <> "" ->
  getenv w name = VStr x /\ truthy (getenv w name) = true.
Proof.
  intros H Hne. unfold getenv. rewrite H. split; [reflexivity |].
  destruct x; [contradiction | reflexivity].
Qed.

Lemma not_present_falsy (w : World) (name : string) :
  ~ present w name -> truthy (getenv w name) = false.
Proof.
  intros Hn. destruct (truthy (getenv w name)) eqn:Ht; [| reflexivity].
  apply truthy_getenv in Ht. contradiction.
Qed.

(** X13.  The URL and the token of a REST request are picked one by one,
    the standard variable first: with a standard URL but no standard
    token, and a complete legacy pair, the store is selected through the
    legacy pair, yet the request goes to the standard URL, carrying the
    legacy token. *)
Theorem rest_request_mixes_the_pairs (w : World) (url url' token' : string) :
  env w !! "KV_REST_API_URL" = Some url -> url <> "" ->
  ~ present w "KV_REST_API_TOKEN" ->
  env w !! "VERCEL_REST_API_URL" = Some url' -> url' <> "" ->
  env w !! "VERCEL_REST_API_TOKEN" = Some token' -> token' <> "" ->
  hasKVConfig w = true /\
  req_url (get_request w) = url +:+ "/get/visit-counter" /\
  req_authorization (get_request w) = "Bearer " +:+ token' /\
  forall count,
    req_url (set_request w count) = url +:+ "/set/visit-counter" /\
    req_authorization (set_request w count) = "Bearer " +:+ token'.
Proof.
  intros Hu Hune Hnt Hu' Hune' Ht' Htne'.
  destruct (getenv_set w _ _ Hu Hune) as [Eu Tu].
  destruct (getenv_set w _ _ Hu' Hune') as [Eu' Tu'].
  destruct (getenv_set w _ _ Ht' Htne') as [Et' Tt'].
  pose proof (not_present_falsy w _ Hnt) as Ft.
  assert (Hurl : toString (apiUrl w) = url).
  { unfold apiUrl, js_or. rewrite Tu, Eu. reflexivity. }
  assert (Htok : toString (apiToken w) = token').
  { unfold apiToken, js_or. rewrite Ft, Et'. reflexivity. }
  split.
  - unfold hasKVConfig. rewrite Tu, Ft, Tu', Tt'. reflexivity.
  - unfold get_request, set_request. cbn [req_url req_authorization].
    rewrite Hurl, Htok. repeat split.
Qed.

Lemma rest_request_mixes_the_pairs_witness :
  let w := mk_world (<["KV_REST_API_URL" := "https://a.example"]> legacy_env)
                    None (mk_fs None None None) Unreachable in
  hasKVConfig w = true /\
  req_url (get_request w) = "https://a.example/get/visit-counter" /\
  req_authorization (get_request w) = "Bearer secret".
Proof.
  intros w.
  destruct (rest_request_mixes_the_pairs w "https://a.example"
              "https://kv.example" "secret") as (H1 & H2 & H3 & _).
  - vm_compute. reflexivity.
  - discriminate.
  - intros (x & Hx & _). vm_compute in Hx. discriminate Hx.
  - vm_compute. reflexivity.
  - discriminate.
  - vm_compute. reflexivity.
  - discriminate.
  - split; [exact H1 |]. split; [exact H2 | exact H3].
Defined.

(** X14.  Over REST a write succeeds exactly when the answer has a 2xx
    status, whatever its body; any other status, 404 included, makes
    [setCount] throw, and an unreachable store makes it throw the
    rejection of [fetch]. *)
Theorem rest_write_outcomes (w : World) (count : number) :
  hasKVConfig w = true ->
  kv w = None ->
  (net w = Unreachable -> fst (setCount count w) = Throw FetchFailed) /\
  (forall r, net w = Answering r ->
     fst (setCount count w)
     = if ok r then Ok true else Throw (KVWriteFailed (status r))) /\
  net (snd (setCount count w)) = snd (fetch (set_request w count) (net w)).
Proof.
  intros Hc Hk. unfold setCount, writeToKV, writeToKVREST. rewrite Hc, Hk.
  repeat split.
  - intros ->. reflexivity.
  - intros r ->. cbn. destruct (ok r); reflexivity.
  - destruct (fetch _ _) as [[r |] s]; [destruct (negb (ok r)) |]; reflexivity.
Qed.

Lemma rest_write_outcomes_witness :
  fst (setCount (Int 3) (rest_world Unreachable)) = Throw FetchFailed /\
  fst (setCount (Int 3) (rest_world (Answering (mk_response 404 (Malformed "")))))
  = Throw (KVWriteFailed 404) /\
  fst (setCount (Int 3) (rest_world (Answering (mk_response 204 (Malformed "")))))
  = Ok true.
Proof.
  split; [| split].
  - destruct (rest_write_outcomes (rest_world Unreachable) (Int 3) eq_refl eq_refl)
      as (H & _).
    exact (H eq_refl).
  - destruct (rest_write_outcomes
                (rest_world (Answering (mk_response 404 (Malformed ""))))
                (Int 3) eq_refl eq_refl) as (_ & H & _).
    exact (H _ eq_refl).
  - destruct (rest_write_outcomes
                (rest_world (Answering (mk_response 204 (Malformed ""))))
                (Int 3) eq_refl eq_refl) as (_ & H & _).
    exact (H _ eq_refl).
Defined.

(** X15.  Against a store that keeps to its contract, with a client
    that reports what is stored, the SDK path and the REST path read the
    same count and leave the same value stored by a write. *)
Theorem sdk_and_rest_agree (w : World) (c : client) (v : option string) :
  faithful c ->
  net w = Holding v ->
  readFromKVSDK c w = readFromKVREST w /\
  forall count,
    fst (writeToKVSDK c count w) = Ok true /\
    fst (writeToKVREST count w) = Ok true /\
    net (snd (writeToKVSDK c count w)) = Holding (Some (number_toString count)) /\
    net (snd (writeToKVREST count w)) = Holding (Some (number_toString count)).
Proof.
  intros Hf Hn. split.
  - unfold readFromKVSDK, readFromKVREST. rewrite Hn.
    destruct (Hf COUNTER_KEY v) as [-> _].
    destruct v as [x |]; [| reflexivity].
    cbn. unfold read_response. cbn. unfold js_or. cbn.
    destruct x; reflexivity.
  - intros count. unfold writeToKVSDK, writeToKVREST. rewrite Hn.
    destruct (Hf COUNTER_KEY v) as [_ ->]. repeat split.
Qed.

Lemma sdk_and_rest_agree_witness :
  readFromKVSDK direct_client (rest_world (Holding (Some "12")))
  = readFromKVREST (rest_world (Holding (Some "12"))).
Proof.
  refine (proj1 (sdk_and_rest_agree (rest_world (Holding (Some "12")))
                   direct_client (Some "12") _ eq_refl)).
  intros key v. split; [destruct v; reflexivity | reflexivity].
Defined.

Lemma init_kv_needs_standard_pair (e : gmap string string) (package : option client)
    (f : fs_state) (s : store) :
  forall c, init_kv e package = Some c ->
    truthy (getenv (boot e package f s) "KV_REST_API_URL") = true /\
    truthy (getenv (boot e package f s) "KV_REST_API_TOKEN") = true.
Proof.
  intros c. unfold init_kv, getenv. cbn [env boot].
  destruct (truthy _); [| discriminate].
  destruct (truthy _); [| discriminate]. auto.
Qed.

(** X16.  Whether the SDK is used is settled when the module is loaded
    and never again: loaded without the complete standard pair, every
    later read of the store goes over REST, whatever the environment has
    become; loaded with it and with the package installed, every later
    read of the store goes through the client, even when the
    environment then holds the legacy pair only. *)
Theorem sdk_choice_is_made_at_load (e : gmap string string)
    (package : option client) (f : fs_state) (s : store) :
  let w := boot e package f s in
  (hasKVConfig w = false -> kv w = None) /\
  (~ (present w "KV_REST_API_URL" /\ present w "KV_REST_API_TOKEN") ->
     forall e2, hasKVConfig (with_env w e2) = true ->
       getCount (with_env w e2) = readFromKVREST (with_env w e2)) /\
  (present w "KV_REST_API_URL" -> present w "KV_REST_API_TOKEN" ->
     forall c, package = Some c ->
     forall e2, hasKVConfig (with_env w e2) = true ->
       getCount (with_env w e2) = readFromKVSDK c (with_env w e2)).
Proof.
  cbv zeta.
  assert (Hinit : forall c, init_kv e package = Some c ->
            present (boot e package f s) "KV_REST_API_URL" /\
            present (boot e package f s) "KV_REST_API_TOKEN").
  { intros c Hc.
    destruct (init_kv_needs_standard_pair e package f s c Hc).
    split; apply truthy_getenv; assumption. }
  repeat split.
  - intros Hno. unfold boot. cbn [kv].
    destruct (init_kv e package) as [c |] eqn:Hk; [| reflexivity].
    destruct (Hinit c eq_refl) as [Hu Ht].
    assert (hasKVConfig (boot e package f s) = true)
      by (apply hasKVConfig_spec; left; auto).
    congruence.
  - intros Hno e2 Hc2. apply getCount_rest; [exact Hc2 |].
    cbn [with_env kv boot].
    destruct (init_kv e package) as [c |] eqn:Hk; [| reflexivity].
    destruct Hno. exact (Hinit c eq_refl).
  - intros Hu Ht c -> e2 Hc2. apply getCount_sdk; [exact Hc2 |].
    cbn [with_env kv boot]. unfold init_kv.
    apply truthy_getenv in Hu, Ht. unfold getenv in Hu, Ht. cbn [env boot] in Hu, Ht.
    rewrite Hu, Ht. reflexivity.
Qed.

End AccessPaths.

(* ===================================================================== *)
(** ** Text: strings, numbers in them, and the client identifier *)
(* ===================================================================== *)

Section Text.
Import JS Storage Counter.

Lemma append_cons (c : ascii) (a b : string) :
  String c a +:+ b = String c (a +:+ b).
Proof. reflexivity. Qed.

Lemma append_nil_l (b : string) : "" +:+ b = b.
Proof. reflexivity. Qed.

Lemma append_nil_r (s : string) : s +:+ "" = s.
Proof.
  induction s as [| c s IH]; [reflexivity |].
  rewrite append_cons, IH. reflexivity.
Qed.


Lemma length_append (a b : string) :
  String.length (a +:+ b) = (String.length a + String.length b)%nat.
Proof.
  induction a as [| x a IH]; [reflexivity |].
  rewrite append_cons. cbn [String.length]. rewrite IH. reflexivity.
Qed.




Lemma skip_space_all (ws s : string) :
  all_space ws = true -> skip_space (ws +:+ s) = skip_space s.
Proof.
  induction ws as [| c ws IH]; [reflexivity |].
  cbn [all_space]. intros H. apply andb_prop in H as [Hc Hws].
  rewrite append_cons. cbn [skip_space]. rewrite Hc. apply IH. exact Hws.
Qed.




(** *** The client identifier *)

Lemma first_field_stops (a tail : string) :
  has_char "," a = false ->
  tail = "" \/ (exists rest, tail = "," +:+ rest) ->
  first_field (a +:+ tail) = a.
Proof.
  intros Ha Ht. induction a as [| c a IH].
  - rewrite append_nil_l. destruct Ht as [-> | [rest ->]]; reflexivity.
  - cbn [has_char] in Ha. apply orb_false_elim in Ha as [Hc Ha].
    rewrite append_cons. cbn [first_field]. rewrite Hc, (IH Ha). reflexivity.
Qed.

Lemma space_is_not_comma (ws : string) :
  all_space ws = true -> has_char "," ws = false.
Proof.
  induction ws as [| c ws IH]; [reflexivity |].
  cbn [all_space has_char]. intros H. apply andb_prop in H as [Hc Hws].
  rewrite (IH Hws), orb_false_r.
  destruct c as [[] [] [] [] [] [] [] []]; try reflexivity; discriminate Hc.
Qed.

Lemma has_char_append (x : ascii) (a b : string) :
  has_char x (a +:+ b) = has_char x a || has_char x b.
Proof.
  induction a as [| c a IH]; [reflexivity |].
  rewrite append_cons. cbn [has_char]. rewrite IH, orb_assoc. reflexivity.
Qed.

Lemma trim_end_all_space (ws : string) : all_space ws = true -> trim_end ws = "".
Proof.
  induction ws as [| c ws IH]; [reflexivity |].
  cbn [all_space trim_end]. intros H. apply andb_prop in H as [Hc Hws].
  rewrite (IH Hws), Hc. reflexivity.
Qed.

Lemma trim_end_drops (s ws : string) :
  all_space ws = true -> trim_end (s +:+ ws) = trim_end s.
Proof.
  intros Hws. induction s as [| c s IH].
  - rewrite append_nil_l. apply trim_end_all_space. exact Hws.
  - rewrite append_cons. cbn [trim_end]. rewrite IH. reflexivity.
Qed.

Lemma trim_end_clean (s : string) : has_space s = false -> trim_end s = s.
Proof.
  induction s as [| c s IH]; [reflexivity |].
  cbn [has_space trim_end]. intros H. apply orb_false_elim in H as [Hc Hs].
  rewrite (IH Hs), Hc. destruct s; reflexivity.
Qed.

Lemma skip_space_clean (s : string) : has_space s = false -> skip_space s = s.
Proof.
  destruct s as [| c s]; [reflexivity |].
  cbn [has_space skip_space]. intros H. apply orb_false_elim in H as [-> _].
  reflexivity.
Qed.

Lemma trim_padded (pre core post : string) :
  all_space pre = true -> all_space post = true ->
  core <> "" -> has_space core = false ->
  trim (pre +:+ core +:+ post) = core.
Proof.
  intros Hpre Hpost Hne Hclean. unfold trim.
  rewrite (skip_space_all _ _ Hpre).
  destruct core as [| c core]; [contradiction |].
  pose proof Hclean as Hc. cbn [has_space] in Hc.
  apply orb_false_elim in Hc as [Hc _].
  rewrite append_cons. cbn [skip_space]. rewrite Hc.
  rewrite <- append_cons, (trim_end_drops _ _ Hpost).
  apply trim_end_clean. exact Hclean.
Qed.

Lemma getClientIP_forwarded (req : http_request) (h : string) :
  x_forwarded_for req = Some h -> h <> "" ->
  getClientIP req = trim (first_field h).
Proof.
  intros H Hne. unfold getClientIP. rewrite H.
  destruct h; [contradiction | reflexivity].
Qed.

(** X18.  With a forwarded-address header, the identifier is its first
    hop: for a header that starts with an address made of ASCII
    characters, free of commas and white space, padded with white space
    or not, and that goes on with a comma or ends there, [getClientIP]
    returns that address, whatever the real-address header and the
    socket say. *)
Theorem forwarded_header_yields_first_hop (req : http_request)
    (pre client post tail : string) :
  x_forwarded_for req = Some ((pre +:+ client +:+ post) +:+ tail) ->
  all_space pre = true -> all_space post = true ->
  client <> "" -> plain_ascii client = true ->
  has_space client = false -> has_char "," client = false ->
  tail = "" \/ (exists rest, tail = "," +:+ rest) ->
  getClientIP req = client.
Proof.
  intros Hh Hpre Hpost Hne _ Hclean Hcomma Htail.
  rewrite (getClientIP_forwarded req _ Hh).
  - rewrite first_field_stops; [apply trim_padded; assumption | | exact Htail].
    rewrite !has_char_append, Hcomma.
    rewrite (space_is_not_comma _ Hpre), (space_is_not_comma _ Hpost).
    reflexivity.
  - intros Hempty. apply (f_equal String.length) in Hempty.
    rewrite !length_append in Hempty.
    destruct client; [contradiction | cbn in Hempty; lia].
Qed.

Lemma forwarded_header_yields_first_hop_witness :
  getClientIP (mk_req (Some " 203.0.113.7 , 10.0.0.1, 10.0.0.2")
                      (Some "198.51.100.4") (Some "127.0.0.1"))
  = "203.0.113.7".
Proof.
  apply (forwarded_header_yields_first_hop _ " " "203.0.113.7" " "
           ", 10.0.0.1, 10.0.0.2"); try reflexivity.
  - discriminate.
  - right. eexists. reflexivity.
Defined.

(** X19.  A forwarded-address header whose first hop is blank gives the
    empty identifier: the header is not empty, so neither the
    real-address header nor the socket is consulted. *)
Theorem blank_first_hop_gives_empty_identifier (req : http_request)
    (ws rest : string) :
  x_forwarded_for req = Some (ws +:+ "," +:+ rest) ->
  all_space ws = true ->
  getClientIP req = "".
Proof.
  intros Hh Hws.
  rewrite (getClientIP_forwarded req _ Hh).
  - rewrite first_field_stops;
      [| apply space_is_not_comma; exact Hws | right; eauto].
    unfold trim. rewrite <- (append_nil_r ws), (skip_space_all _ _ Hws).
    reflexivity.
  - destruct ws; discriminate.
Qed.

Lemma blank_first_hop_gives_empty_identifier_witness :
  getClientIP (mk_req (Some " ,10.0.0.1") (Some "198.51.100.4") None) = "".
Proof.
  apply (blank_first_hop_gives_empty_identifier _ " " "10.0.0.1"); reflexivity.
Defined.

(** X20.  Without a forwarded-address header, or with an empty one, the
    identifier is never empty: it is the real-address header if that is
    set and not empty, else the socket's address if there is one and it
    is not empty, else "unknown". *)
Theorem identifier_without_forwarded_header (req : http_request) :
  x_forwarded_for req = None \/ x_forwarded_for req = Some "" ->
  getClientIP req <> "" /\
  (forall ip, x_real_ip req = Some ip -> ip <> "" -> getClientIP req = ip) /\
  (x_real_ip req = None \/ x_real_ip req = Some "" ->
     (forall a, remoteAddress req = Some a -> a <> "" -> getClientIP req = a) /\
     (remoteAddress req = None \/ remoteAddress req = Some "" ->
        getClientIP req = "unknown")).
Proof.
  intros Hf.
  assert (Hget : getClientIP req
                 = match x_real_ip req with
                   | Some (String c r) => String c r
                   | _ => toString (js_or (opt_value (remoteAddress req))
                                          (VStr "unknown"))
                   end).
  { unfold getClientIP. destruct Hf as [-> | ->]; reflexivity. }
  rewrite Hget. repeat split.
  - destruct (x_real_ip req) as [[| c r] |]; try discriminate;
      destruct (remoteAddress req) as [[| c' r'] |]; discriminate.
  - intros ip -> Hne. destruct ip; [contradiction | reflexivity].
  - intros a Ha Hne. destruct H as [-> | ->]; rewrite Ha;
      destruct a; try contradiction; reflexivity.
  - intros Hr. destruct H as [-> | ->]; destruct Hr as [-> | ->]; reflexivity.
Qed.

Lemma identifier_without_forwarded_header_witness :
  getClientIP (mk_req (Some "") None (Some "")) = "unknown" /\
  getClientIP (mk_req None (Some "198.51.100.4") (Some "127.0.0.1"))
  = "198.51.100.4".
Proof.
  split.
  - destruct (identifier_without_forwarded_header (mk_req (Some "") None (Some "")))
      as (_ & _ & H); [right; reflexivity |].
    destruct (H (or_introl eq_refl)) as [_ H2]. apply H2. right. reflexivity.
  - destruct (identifier_without_forwarded_header
                (mk_req None (Some "198.51.100.4") (Some "127.0.0.1")))
      as (_ & H & _); [left; reflexivity |].
    apply H; [reflexivity | discriminate].
Defined.

End Text.

(* ===================================================================== *)
(** ** The badge *)
(* ===================================================================== *)

Section Badge.
Import JS Counter.

Local Open Scope list_scope.

Local Abbreviation chars := list_ascii_of_string.

Lemma chars_append (a b : string) : chars (a +:+ b) = chars a ++ chars b.
Proof.
  induction a as [| c a IH]; [reflexivity |].
  rewrite append_cons. cbn [list_ascii_of_string]. rewrite IH. reflexivity.
Qed.

Lemma chars_inj (a b : string) : chars a = chars b -> a = b.
Proof.
  intros H. rewrite <- (string_of_list_ascii_of_string a),
              <- (string_of_list_ascii_of_string b), H. reflexivity.
Qed.

(** A character that is not a digit does not occur among digits. *)
Lemma digits_fuel_lacks (x : ascii) (f : nat) :
  is_digit x = false ->
  forall (n : Z) (s : string),
    0 <= n -> has_char x s = false -> has_char x (digits_fuel f n s) = false.
Proof.
  intros Hx. induction f as [| f IH]; intros n s Hn Hs; [exact Hs |].
  cbn [digits_fuel].
  assert (Hmod : 0 <= n mod 10 < 10) by (apply Z.mod_pos_bound; lia).
  assert (Hd : has_char x (String (digit_char (n mod 10)) s) = false).
  { cbn [has_char]. rewrite Hs, orb_false_r.
    destruct (digit_char_spec _ Hmod) as [Hdig _].
    destruct (Ascii.eqb_spec (digit_char (n mod 10)) x) as [Heq | _];
      [| reflexivity].
    rewrite Heq in Hdig. congruence. }
  destruct (n <? 10); [exact Hd |].
  apply IH; [apply Z.div_pos; lia | exact Hd].
Qed.

Lemma Z_toString_lacks (x : ascii) (z : Z) :
  is_digit x = false -> x <> "-"%char -> has_char x (Z_toString z) = false.
Proof.
  intros Hx Hminus. unfold Z_toString. destruct (Z.ltb_spec z 0).
  - cbn [has_char].
    destruct (Ascii.eqb_spec "-" x) as [Heq | _]; [congruence |].
    apply digits_fuel_lacks; [exact Hx | lia | reflexivity].
  - apply digits_fuel_lacks; [exact Hx | lia | reflexivity].
Qed.

Lemma Z_toString_inj (a b : Z) : Z_toString a = Z_toString b -> a = b.
Proof.
  intros H. apply (f_equal parseInt_string) in H.
  rewrite !parseInt_Z_toString in H. congruence.
Qed.

(** No [>] in a printed Number. *)
Lemma number_toString_no_gt (n : number) :
  has_char ">" (number_toString n) = false.
Proof.
  destruct n as [z | | d e]; cbn [number_toString].
  - apply Z_toString_lacks; [reflexivity | discriminate].
  - reflexivity.
  - rewrite !has_char_append, !Z_toString_lacks by (reflexivity || discriminate).
    reflexivity.
Qed.

Lemma has_char_elem (x : ascii) (s : string) :
  has_char x s = false -> x ∉ chars s.
Proof.
  induction s as [| c s IH]; cbn [has_char list_ascii_of_string].
  - intros _. apply not_elem_of_nil.
  - intros H. apply orb_false_elim in H as [Hc Hs].
    apply not_elem_of_cons. split; [| apply IH; exact Hs].
    intros ->. rewrite Ascii.eqb_refl in Hc. discriminate.
Qed.

(** Two lists that agree up to and after the first occurrence of [x]. *)
Lemma split_at_first (x : ascii) (a b p q : list ascii) :
  x ∉ a -> x ∉ b -> a ++ x :: p = b ++ x :: q -> a = b.
Proof.
  revert b. induction a as [| c a IH]; intros [| d b] Ha Hb H.
  - reflexivity.
  - injection H as <- _. exfalso. apply Hb. apply elem_of_cons. left. reflexivity.
  - injection H as -> _. exfalso. apply Ha. apply elem_of_cons. left. reflexivity.
  - injection H as <- H. f_equal.
    apply not_elem_of_cons in Ha as [_ Ha]. apply not_elem_of_cons in Hb as [_ Hb].
    apply IH; assumption.
Qed.

Lemma split_at_first_both (x : ascii) (a b p q : list ascii) :
  x ∉ a -> x ∉ b -> a ++ x :: p = b ++ x :: q -> a = b /\ p = q.
Proof.
  intros Ha Hb H. pose proof (split_at_first x a b p q Ha Hb H) as ->.
  split; [reflexivity |]. apply app_inv_head in H. congruence.
Qed.

(** An exponent form has an [e]; plain decimal and ["NaN"] have none. *)
Lemma exponent_form_has_e (d e : Z) :
  has_char "e" (number_toString (Exp d e)) = true.
Proof.
  cbn [number_toString]. rewrite !has_char_append.
  rewrite Z_toString_lacks by (reflexivity || discriminate). reflexivity.
Qed.

(** Different Numbers print differently. *)
Lemma number_toString_inj (a b : number) :
  number_toString a = number_toString b -> a = b.
Proof.
  assert (Hplain : forall z, has_char "e" (Z_toString z) = false)
    by (intros z; apply Z_toString_lacks; [reflexivity | discriminate]).
  destruct a as [x | | d e], b as [y | | d' e']; intros H.
  - f_equal. apply Z_toString_inj. exact H.
  - apply (f_equal parseInt_string) in H. cbn [number_toString] in H.
    rewrite parseInt_Z_toString in H. discriminate H.
  - apply (f_equal (has_char "e")) in H.
    rewrite exponent_form_has_e in H. cbn [number_toString] in H.
    rewrite Hplain in H. discriminate H.
  - apply (f_equal parseInt_string) in H. cbn [number_toString] in H.
    rewrite parseInt_Z_toString in H. discriminate H.
  - reflexivity.
  - apply (f_equal (has_char "e")) in H.
    rewrite exponent_form_has_e in H. discriminate H.
  - apply (f_equal (has_char "e")) in H.
    rewrite exponent_form_has_e in H. cbn [number_toString] in H.
    rewrite Hplain in H. discriminate H.
  - apply (f_equal (has_char "e")) in H.
    rewrite exponent_form_has_e in H. discriminate H.
  - cbn [number_toString] in H. apply (f_equal chars) in H.
    rewrite !chars_append in H. cbn [list_ascii_of_string app] in H.
    apply split_at_first_both in H;
      [| apply has_char_elem, Hplain | apply has_char_elem, Hplain].
    destruct H as [Hd He]. injection He as He.
    apply chars_inj, Z_toString_inj in Hd. apply chars_inj, Z_toString_inj in He.
    congruence.
Qed.

(** The text ends with [>], the count and the closing tags. *)
Lemma generateSVG_text_shape (count : number) :
  exists before : list ascii,
    chars (generateSVG_text count)
    = before ++ ">"%char :: (chars (number_toString count) ++ chars svg_tail).
Proof.
  unfold generateSVG_text, value_text_open.
  exists (chars (join nl (svg_head count)) ++ chars nl ++ chars "  <text"
          ++ chars (text_attrs (half_toString (2 * labelWidth + valueWidth count)))).
  rewrite !chars_append, <- !app_assoc. reflexivity.
Qed.

(** X21.  The badge tells the count: two different counts never give
    the same text. *)
Theorem badges_of_different_counts_differ (a b : number) :
  a <> b -> generateSVG_text a <> generateSVG_text b.
Proof.
  intros Hne Heq. apply Hne. apply number_toString_inj. apply chars_inj.
  apply (f_equal chars) in Heq.
  destruct (generateSVG_text_shape a) as [pa Ha].
  destruct (generateSVG_text_shape b) as [pb Hb].
  rewrite Ha, Hb in Heq.
  apply (f_equal reverse) in Heq.
  rewrite !reverse_app, !reverse_cons, !reverse_app in Heq.
  rewrite <- !app_assoc in Heq.
  apply app_inv_head in Heq. cbn [app] in Heq.
  apply split_at_first in Heq.
  - apply (f_equal reverse) in Heq. rewrite !reverse_involutive in Heq. exact Heq.
  - rewrite elem_of_reverse. apply has_char_elem, number_toString_no_gt.
  - rewrite elem_of_reverse. apply has_char_elem, number_toString_no_gt.
Qed.

Lemma badges_of_different_counts_differ_witness :
  generateSVG_text (Int 9) <> generateSVG_text (Int 10).
Proof. apply (badges_of_different_counts_differ (Int 9) (Int 10)). discriminate. Defined.

(** How many characters the digits of [n] take. *)
Lemma length_digits_fuel (j : nat) :
  forall (f : nat) (n : Z) (s : string),
    (j < f)%nat ->
    0 <= n < 10 ^ Z.of_nat (S j) ->
    j = 0%nat \/ 10 ^ Z.of_nat j <= n ->
    String.length (digits_fuel f n s) = (S j + String.length s)%nat.
Proof.
  induction j as [| j IH]; intros f n s Hf Hn Hlow;
    (destruct f as [| f]; [lia |]); cbn [digits_fuel].
  - destruct (Z.ltb_spec n 10) as [_ | Hge]; [reflexivity |].
    change (10 ^ Z.of_nat 1) with 10 in Hn. lia.
  - destruct Hlow as [Hz | Hlow]; [discriminate |].
    rewrite Nat2Z.inj_succ, Z.pow_succ_r in Hlow by lia.
    assert (Hpos : 0 < 10 ^ Z.of_nat j) by (apply Z.pow_pos_nonneg; lia).
    destruct (Z.ltb_spec n 10) as [Hlt | _]; [lia |].
    rewrite IH.
    + cbn [String.length]. lia.
    + lia.
    + split; [apply Z.div_pos; lia |].
      apply Z.div_lt_upper_bound; [lia |].
      rewrite (Nat2Z.inj_succ (S j)), Z.pow_succ_r in Hn by lia. lia.
    + right. apply Z.div_le_lower_bound; lia.
Qed.

Lemma length_digits (j : nat) (n : Z) :
  0 <= n < 10 ^ Z.of_nat (S j) ->
  j = 0%nat \/ 10 ^ Z.of_nat j <= n ->
  String.length (digits n) = S j.
Proof.
  intros Hn Hlow. unfold digits.
  rewrite (length_digits_fuel j); [cbn; lia | | exact Hn | exact Hlow].
  destruct Hlow as [-> | Hlow]; [lia |].
  assert (Hpos : 0 < 10 ^ Z.of_nat j) by (apply Z.pow_pos_nonneg; lia).
  assert (H2 : 2 ^ Z.of_nat j <= n).
  { transitivity (10 ^ Z.of_nat j); [apply Z.pow_le_mono_l; lia | exact Hlow]. }
  assert (Hlog : Z.of_nat j <= Z.log2 n).
  { rewrite <- (Z.log2_pow2 (Z.of_nat j)) by lia. apply Z.log2_le_mono. exact H2. }
  lia.
Qed.

(** X22.  The badge is 89 wide for a count of one digit, and 7 wider for
    each further digit: for a count with [j + 1] decimal digits the
    value box is [27 + 7 j] wide and the whole badge [89 + 7 j]. *)
Theorem badge_width_by_digits (j : nat) (z : Z) :
  0 <= z < 10 ^ Z.of_nat (S j) ->
  j = 0%nat \/ 10 ^ Z.of_nat j <= z ->
  valueWidth (Int z) = 27 + 7 * Z.of_nat j /\
  totalWidth (Int z) = 89 + 7 * Z.of_nat j.
Proof.
  intros Hz Hlow.
  assert (Hv : valueWidth (Int z) = 27 + 7 * Z.of_nat j).
  { unfold valueWidth, number_toString, Z_toString.
    destruct (Z.ltb_spec z 0); [lia |].
    rewrite (length_digits j z Hz Hlow). lia. }
  split; [exact Hv |]. unfold totalWidth. rewrite Hv.
  change labelWidth with 62. lia.
Qed.

Lemma badge_width_by_digits_witness :
  valueWidth (Int 1234) = 27 + 7 * Z.of_nat 3 /\
  totalWidth (Int 1234) = 89 + 7 * Z.of_nat 3.
Proof.
  apply (badge_width_by_digits 3 1234); [split; reflexivity || lia | right; cbn; lia].
Defined.

End Badge.

(* ===================================================================== *)
(** ** Further edge cases of reading and of the first visit *)
(* ===================================================================== *)

Section Edges.
Import JS Storage Counter.

(** X23.  A stored document that is valid JSON but not an object (a
    number, a string, a boolean, an array) has no [count], [result] or
    [value], and reads as 0 on the file backend and over REST alike;
    nothing is thrown. *)
Theorem non_object_document_reads_zero (w : World) (v : value) :
  (exists b, v = VBool b) \/ (exists n, v = VNum n) \/
  (exists x, v = VStr x) \/ (exists items, v = VArr items) ->
  (hasKVConfig w = false -> read_fault (fs w) = None ->
     file (fs w) = Some (Json v) -> getCount w = Ok (Int 0)) /\
  (hasKVConfig w = true -> kv w = None ->
     forall r, net w = Answering r -> ok r = true -> body r = Json v ->
     getCount w = Ok (Int 0)).
Proof.
  intros Hv.
  assert (Hprop : forall name, get_prop v name = Ok VUndefined).
  { intros name. destruct Hv as [[b ->] | [[n ->] | [[x ->] | [items ->]]]];
      reflexivity. }
  split.
  - intros Hc Hr Hf.
    rewrite (getCount_local w Hc), (readFromFile_contents w _ Hr Hf).
    cbn [JSON_parse]. rewrite Hprop. reflexivity.
  - intros Hc Hk r Hn Hok Hb.
    rewrite (getCount_rest w Hc Hk), (readFromKVREST_answer w r Hn).
    unfold read_response. rewrite (ok_not_404 r Hok), Hok, Hb.
    cbn [negb JSON_parse bind]. rewrite !Hprop. reflexivity.
Qed.

Lemma non_object_document_reads_zero_witness :
  getCount (local_world (Some (Json (VNum (Int 17))))) = Ok (Int 0) /\
  getCount (rest_world (Answering (mk_response 200 (Json (VStr "17")))))
  = Ok (Int 0).
Proof.
  split.
  - destruct (non_object_document_reads_zero
                (local_world (Some (Json (VNum (Int 17))))) (VNum (Int 17)))
      as [H _]; [right; left; eauto |].
    exact (H eq_refl eq_refl eq_refl).
  - destruct (non_object_document_reads_zero
                (rest_world (Answering (mk_response 200 (Json (VStr "17")))))
                (VStr "17")) as [_ H]; [right; right; left; eauto |].
    exact (H eq_refl eq_refl _ eq_refl eq_refl eq_refl).
Defined.



End Edges.
